(** * Forecast reshaping pipeline of the weather front end (static/app.js)

    A shallow embedding of the controller [WeatherCtrl]: the day grouper
    [buildGroupedForecast], the slot matcher [findForecastForSlot], the
    temperature colorizer [tempStyle], the label helpers and the search
    state machine, with the properties the specification states about them.

    Conventions of the embedding.
    - An integer-valued JavaScript number is a [jsnum]: a finite integer,
      an infinity or NaN.  A finite temperature is the rational it denotes
      ([Q]), and every arithmetic operation on temperatures rounds its
      exact result to the nearest binary64 value, ties to even
      ([roundNumber]).
    - [null] and [undefined] are [None].
    - The object [grouped] of [buildGroupedForecast] is an association list
      in insertion order, which is the order [Object.values] enumerates keys
      that are not array indices.
    - What the host decides (time zone, locale formatting, printing of a
      fractional number) is a variable of the section [Host]. *)

From Stdlib Require Import ZArith List String Ascii Bool Lia Permutation.
From Stdlib Require Import QArith Qminmax Qround Qpower Qabs Lqa.
From Stdlib Require PrimFloat FloatOps SpecFloat.
From Stdlib Require Import Decimal DecimalString DecimalZ.
Import ListNotations.

Local Open Scope string_scope.
Local Open Scope list_scope.
Local Open Scope Z_scope.

(** ** Integer-valued JavaScript numbers *)

Inductive jsnum : Type :=
| NaN
| NegInfinity
| Fin (z : Z)
| Infinity.

Definition jsnum_eqb (a b : jsnum) : bool :=
  match a, b with
  | NaN, NaN => true
  | NegInfinity, NegInfinity => true
  | Infinity, Infinity => true
  | Fin x, Fin y => Z.eqb x y
  | _, _ => false
  end.

(** [a + b] *)
Definition jsnum_add (a b : jsnum) : jsnum :=
  match a, b with
  | NaN, _ | _, NaN => NaN
  | Infinity, NegInfinity | NegInfinity, Infinity => NaN
  | Infinity, _ | _, Infinity => Infinity
  | NegInfinity, _ | _, NegInfinity => NegInfinity
  | Fin x, Fin y => Fin (x + y)
  end.

(** [- a] *)
Definition jsnum_neg (a : jsnum) : jsnum :=
  match a with
  | NaN => NaN
  | NegInfinity => Infinity
  | Infinity => NegInfinity
  | Fin x => Fin (- x)
  end.

(** [a - b] *)
Definition jsnum_sub (a b : jsnum) : jsnum := jsnum_add a (jsnum_neg b).

(** [Math.abs(a)] *)
Definition Math_abs (a : jsnum) : jsnum :=
  match a with
  | NaN => NaN
  | NegInfinity | Infinity => Infinity
  | Fin x => Fin (Z.abs x)
  end.

(** [a < b]; every comparison with NaN is false. *)
Definition jsnum_lt (a b : jsnum) : bool :=
  match a, b with
  | NaN, _ | _, NaN => false
  | _, NegInfinity => false
  | NegInfinity, _ => true
  | Infinity, _ => false
  | Fin _, Infinity => true
  | Fin x, Fin y => Z.ltb x y
  end.

(** Decimal text of an integer, as [Number::toString] prints one. *)
Definition Z_toString (z : Z) : string :=
  NilEmpty.string_of_int (Z.to_int z).

(** String conversion of a number in a concatenation. *)
Definition jsnum_toString (a : jsnum) : string :=
  match a with
  | NaN => "NaN"
  | NegInfinity => "-Infinity"
  | Infinity => "Infinity"
  | Fin z => Z_toString z
  end.

(** Truthiness of a string: the empty string is falsy. *)
Definition truthy_string (s : string) : bool :=
  match s with
  | EmptyString => false
  | String _ _ => true
  end.

(** ** Dates (ECMAScript time values, milliseconds since the epoch) *)

Module JsDate.

Inductive Date : Type :=
| InvalidDate
| TimeValue (tv : Z).

Definition msPerDay : Z := 86400000.
Definition msPerHour : Z := 3600000.
Definition maxTimeValue : Z := 8640000000000000.

(** TimeClip: a time value beyond 8.64e15 ms makes the date invalid. *)
Definition TimeClip (ms : Z) : Date :=
  if Z.abs ms <=? maxTimeValue then TimeValue ms else InvalidDate.

(** [new Date(ms)] for a numeric argument. *)
Definition new_Date (ms : Z) : Date := TimeClip ms.

Definition Day (t : Z) : Z := t / msPerDay.

Definition HourFromTime (t : Z) : Z := (t / msPerHour) mod 24.

(** Proleptic Gregorian date of a day number: (year, month 0..11, day). *)
Definition civil_from_days (days : Z) : Z * Z * Z :=
  let z := days + 719468 in
  let era := z / 146097 in
  let doe := z - era * 146097 in
  let yoe := (doe - doe / 1460 + doe / 36524 - doe / 146096) / 365 in
  let y := yoe + era * 400 in
  let doy := doe - (365 * yoe + yoe / 4 - yoe / 100) in
  let mp := (5 * doy + 2) / 153 in
  let d := doy - (153 * mp + 2) / 5 + 1 in
  let m := if mp <? 10 then mp + 3 else mp - 9 in
  ((if m <=? 2 then y + 1 else y), m - 1, d).

Definition YearFromTime (t : Z) : Z := fst (fst (civil_from_days (Day t))).
Definition MonthFromTime (t : Z) : Z := snd (fst (civil_from_days (Day t))).
Definition DateFromTime (t : Z) : Z := snd (civil_from_days (Day t)).

Section LocalTime.
(** Offset of the viewer's local time from UTC, in milliseconds, at a
    UTC time value (it varies with daylight saving). *)
Variable LocalTZA : Z -> Z.

Definition LocalTime (t : Z) : Z := t + LocalTZA t.

Definition getFullYear (d : Date) : jsnum :=
  match d with
  | InvalidDate => NaN
  | TimeValue t => Fin (YearFromTime (LocalTime t))
  end.

Definition getMonth (d : Date) : jsnum :=
  match d with
  | InvalidDate => NaN
  | TimeValue t => Fin (MonthFromTime (LocalTime t))
  end.

Definition getDate (d : Date) : jsnum :=
  match d with
  | InvalidDate => NaN
  | TimeValue t => Fin (DateFromTime (LocalTime t))
  end.

Definition getHours (d : Date) : jsnum :=
  match d with
  | InvalidDate => NaN
  | TimeValue t => Fin (HourFromTime (LocalTime t))
  end.
End LocalTime.

End JsDate.
Import JsDate.

(** ** Data model *)

(** One entry of [forecast.list]; only [dt] is read by the controller, the
    other fields are displayed by the template. *)
Record Sample : Type := mkSample {
  dt : Z;
  temp : Q;
  icon : string
}.

(** A value of the object [grouped]: one local calendar day. *)
Record Bucket : Type := mkBucket {
  label : string;
  items : list Sample
}.

Record Slot : Type := mkSlot {
  slot_label : string;
  hours : option (list Z)
}.

Record Place : Type := mkPlace {
  name : option string;
  state : option string;
  country : option string
}.

Record Forecast : Type := mkForecast {
  forecast_list : option (list Sample)
}.

Record Current : Type := mkCurrent {
  current_temp : Q
}.

(** The response body of [/api/weather], and the shape of [vm.data]. *)
Record Payload : Type := mkPayload {
  forecast : option Forecast;
  current : option Current;
  place : option Place
}.

(** A rejection value: [err.data.error] may be missing at each level. *)
Record ErrorBody : Type := mkErrorBody {
  err_error : option string
}.

Record HttpError : Type := mkHttpError {
  err_data : option ErrorBody
}.

(** The controller's fields. *)
Record VM : Type := mkVM {
  query : string;
  units : string;
  loading : bool;
  error : option string;
  data : Payload;
  groupedForecast : list Bucket;
  slots : list Slot
}.

(** ** Utils *)

Definition iconUrl (icon : option string) : string :=
  match icon with
  | Some i =>
      if truthy_string i
      then ("https://openweathermap.org/img/wn/" ++ i ++ "@2x.png")%string
      else ""
  | None => ""
  end.

Definition speedUnit (units : string) : string :=
  if String.eqb units "imperial" then "mph" else "m/s".

(** [Boolean] as the predicate of [filter], on a string-or-absent value. *)
Definition Boolean (v : option string) : bool :=
  match v with
  | Some s => truthy_string s
  | None => false
  end.

(** [Array.prototype.join]: the loop over the indices, with the separator
    before every element but the first; an absent element prints as the
    empty string. *)
Fixpoint join_loop (sep : string) (k : nat) (R : string)
                   (elems : list (option string)) : string :=
  match elems with
  | [] => R
  | e :: rest =>
      let R := match k with O => R | S _ => (R ++ sep)%string end in
      let next := match e with Some s => s | None => "" end in
      join_loop sep (S k) (R ++ next)%string rest
  end.

Definition Array_join (elems : list (option string)) (sep : string) : string :=
  join_loop sep O "" elems.

Definition emptyPlace : Place := mkPlace None None None.

(** [vm.placeName], reading [vm.data]. *)
Definition placeName (data : Payload) : string :=
  let p := match place data with Some p => p | None => emptyPlace end in
  let joined := Array_join (filter Boolean [name p; state p; country p]) ", " in
  if truthy_string joined then joined else "Your location".

(** ** Forecast helpers *)

(** The object [grouped]: string keys in insertion order. *)
Definition JsObject : Type := list (string * Bucket).

(** [o[k]] *)
Fixpoint obj_get (o : JsObject) (k : string) : option Bucket :=
  match o with
  | [] => None
  | (k', b) :: rest => if String.eqb k' k then Some b else obj_get rest k
  end.

(** [o[k] = b]: an existing key keeps its position, a new one goes last. *)
Fixpoint obj_set (o : JsObject) (k : string) (b : Bucket) : JsObject :=
  match o with
  | [] => [(k, b)]
  | (k', b') :: rest =>
      if String.eqb k' k then (k', b) :: rest else (k', b') :: obj_set rest k b
  end.

(** [o[k].items.push(item)]; the key is present wherever the code runs
    this, and an object without the key is returned as it is. *)
Fixpoint obj_push_item (o : JsObject) (k : string) (item : Sample) : JsObject :=
  match o with
  | [] => []
  | (k', b) :: rest =>
      if String.eqb k' k
      then (k', mkBucket (label b) (items b ++ [item])) :: rest
      else (k', b) :: obj_push_item rest k item
  end.

Definition Object_values (o : JsObject) : list Bucket := map snd o.

(** [a.slice(0, n)] *)
Definition slice0 {A : Type} (n : nat) (a : list A) : list A := firstn n a.

(** 4 fixed time slots *)
Definition buildTimeSlots : list Slot :=
  [ mkSlot "🌅 Morning" (Some [6; 9; 12]);
    mkSlot "☀️ Afternoon" (Some [12; 15; 18]);
    mkSlot "🌇 Evening" (Some [18; 21]);
    mkSlot "🌙 Night" (Some [0; 3; 21; 23]) ].

Definition formatSlotLabel (slot : Slot) : string := slot_label slot.

(** ** Labels *)

Definition unitsLabel (units : string) : string :=
  if String.eqb units "imperial" then "°F"
  else if String.eqb units "standard" then "K"
  else "°C".

(** ** Temp styling: the bounds chosen from [vm.units] *)

Definition tempDomain (units : string) : Q * Q :=
  if String.eqb units "imperial" then (-20 # 1, 110 # 1)
  else if String.eqb units "metric" then (-10 # 1, 45 # 1)
  else (260 # 1, 320 # 1).

Definition Math_max (a b : Q) : Q := Qmax a b.
Definition Math_min (a b : Q) : Q := Qmin a b.

(** *** Binary64 arithmetic on finite numbers

    The result of [-], [/] and [*] on two finite numbers is the exact
    result rounded to the nearest binary64 value, ties to the even
    significand.  A binary64 value is a multiple of its quantum: 2^(e-52)
    in the binade [2^e, 2^(e+1)), and 2^-1074 below 2^-1022.  No result of
    [vm.tempStyle] reaches 2^1024, where the rounding would overflow. *)

Definition pow2 (k : Z) : Q := (2 ^ k)%Q.

(** The nearest integer, a tie going to the even one. *)
Definition roundHalfEven (r : Q) : Z :=
  let f := Qfloor r in
  match ((r - inject_Z f) * 2 ?= 1)%Q with
  | Lt => f
  | Gt => f + 1
  | Eq => if Z.even f then f else f + 1
  end.

(** The exponent [e] with 2^e <= x < 2^(e+1), for a positive [x]. *)
Definition binade (x : Q) : Z :=
  let e0 := Z.log2 (Qnum x) - Z.log2 (Zpos (Qden x)) in
  if Qle_bool (pow2 e0) x then e0 else e0 - 1.

(** The exponent of the spacing of the binary64 values around [x]. *)
Definition quantum (x : Q) : Z := Z.max (binade x - 52) (-1074).

(** Rounding to the multiples of 2^q. *)
Definition roundAt (q : Z) (x : Q) : Q :=
  (inject_Z (roundHalfEven (x / pow2 q)) * pow2 q)%Q.

(** Rounding of a non-negative number. *)
Definition roundMagnitude (x : Q) : Q :=
  if Qeq_bool x 0 then 0%Q else roundAt (quantum x) x.

(** Rounding to the nearest binary64 value, ties to even. *)
Definition roundNumber (x : Q) : Q :=
  if Qle_bool 0 x then roundMagnitude x else (- roundMagnitude (- x))%Q.

(** [a - b], [a / b] and [a * b] on finite numbers. *)
Definition Number_sub (a b : Q) : Q := roundNumber (a - b).
Definition Number_div (a b : Q) : Q := roundNumber (a / b).
Definition Number_mul (a b : Q) : Q := roundNumber (a * b).

(** The value of [hue] in [vm.tempStyle]. *)
Definition tempHue (units : string) (temp : Q) : Q :=
  let '(min, max) := tempDomain units in
  let clamped := Math_max min (Math_min temp max) in
  let ratio := Number_div (Number_sub clamped min) (Number_sub max min) in
  Number_mul (Number_sub 1 ratio) (220 # 1).

(** The machine's own binary64 arithmetic, to run beside the model. *)
Module Binary64.
Import PrimFloat.

(** The rational a binary64 value denotes. *)
Definition float_to_Q (f : float) : option Q :=
  match FloatOps.Prim2SF f with
  | SpecFloat.S754_zero _ => Some 0%Q
  | SpecFloat.S754_finite sign m e =>
      Some ((if sign then -1 # 1 else 1 # 1) * inject_Z (Zpos m) * pow2 e)%Q
  | _ => None
  end.

(** [(1 - (clamped - min) / (max - min)) * 220] on machine numbers. *)
Definition hue (min max clamped : float) : float :=
  ((1 - (clamped - min) / (max - min)) * 220)%float.

(** The model's number is the machine's. *)
Definition agrees (model : Q) (machine : float) : bool :=
  match float_to_Q machine with
  | Some q => Qeq_bool model q
  | None => false
  end.

End Binary64.

(** A style object: CSS property names and values. *)
Definition Style : Type := list (string * string).

Section Host.
(** The viewer's time zone. *)
Variable LocalTZA : Z -> Z.
(** [date.toLocaleDateString(undefined, {weekday, month, day})] in the
    viewer's locale. *)
Variable toLocaleDateString : Date -> string.
(** Printing of a number in a template literal. *)
Variable Number_toString : Q -> string.

(** The LOCAL DATE KEY of a date. *)
Definition dayKey (date : Date) : string :=
  (((jsnum_toString (getFullYear LocalTZA date) ++ "-")
      ++ jsnum_toString (jsnum_add (getMonth LocalTZA date) (Fin 1)))
      ++ "-")
      ++ jsnum_toString (getDate LocalTZA date).

Definition itemDate (item : Sample) : Date := new_Date (dt item * 1000).

(** The callback of [list.forEach] in [buildGroupedForecast]. *)
Definition group_item (grouped : JsObject) (item : Sample) : JsObject :=
  let date := itemDate item in
  let key := dayKey date in
  let grouped :=
    match obj_get grouped key with
    | None => obj_set grouped key (mkBucket (toLocaleDateString date) [])
    | Some _ => grouped
    end in
  obj_push_item grouped key item.

Definition buildGroupedForecast (list : option (list Sample))
  : Datatypes.list Bucket :=
  match list with
  | None => []
  | Some l => slice0 5 (Object_values (fold_left group_item l []))
  end.

(** The inner callback of [findForecastForSlot]; the pair is
    [(best, bestDiff)]. *)
Definition slot_hour_step (it : Sample) (h : jsnum)
           (acc : option Sample * jsnum) (sh : Z) : option Sample * jsnum :=
  let diff := Math_abs (jsnum_sub h (Fin sh)) in
  if jsnum_lt diff (snd acc) then (Some it, diff) else acc.

(** The outer callback. *)
Definition slot_item_step (slot_hours : list Z)
           (acc : option Sample * jsnum) (it : Sample) : option Sample * jsnum :=
  let h := getHours LocalTZA (itemDate it) in
  fold_left (slot_hour_step it h) slot_hours acc.

Definition findForecastForSlot (items : option (list Sample)) (slot : Slot)
  : option Sample :=
  match items, hours slot with
  | Some its, Some hs => fst (fold_left (slot_item_step hs) its (None, Infinity))
  | _, _ => None
  end.

Definition hsl (hue : Q) (s l : string) : string :=
  ("hsl(" ++ Number_toString hue ++ ", " ++ s ++ ", " ++ l ++ ")")%string.

Definition tempStyle (units : string) (temp : option Q) : Style :=
  match temp with
  | None => []
  | Some t =>
      let hue := tempHue units t in
      [ ("color", hsl hue "70%" "25%");
        ("background-color", hsl hue "85%" "90%");
        ("border-radius", "0.25rem");
        ("padding", "0.25rem") ]
  end.

(** ** API search *)

(** How the promise of [WeatherApi.fetchByCity] settles. *)
Inductive Outcome : Type :=
| Resolved (response : option Payload)
| Rejected (err : option HttpError).

(** A callback either returns or throws, with the fields as it left them. *)
Inductive Completion : Type :=
| Normal (vm : VM)
| Throw (vm : VM) (err : option HttpError).

Definition emptyData : Payload :=
  mkPayload (Some (mkForecast (Some []))) None None.

(** The synchronous part of [vm.search]. *)
Definition search_begin (vm : VM) : VM :=
  mkVM (query vm) (units vm) true None
       (data vm) (groupedForecast vm) (slots vm).

Definition no_data (vm : VM) : VM :=
  mkVM (query vm) (units vm) (loading vm) (Some "No weather data found.")
       emptyData [] [].

(** A [TypeError] has no [data] property. *)
Definition TypeError : option HttpError := Some (mkHttpError None).

(** The [then] callback; reading [data.forecast.list] throws when
    [data.forecast] is missing, after [vm.data] was assigned. *)
Definition onFulfilled (response : option Payload) (vm : VM) : Completion :=
  match response with
  | None => Normal (no_data vm)
  | Some d =>
      match current d with
      | None => Normal (no_data vm)
      | Some _ =>
          let vm1 := mkVM (query vm) (units vm) (loading vm) (error vm)
                          d (groupedForecast vm) (slots vm) in
          match forecast d with
          | None => Throw vm1 TypeError
          | Some f =>
              Normal (mkVM (query vm1) (units vm1) (loading vm1) (error vm1)
                           (data vm1)
                           (buildGroupedForecast (forecast_list f))
                           buildTimeSlots)
          end
      end
  end.

Definition error_text (err : option HttpError) : string :=
  match err with
  | Some e =>
      match err_data e with
      | Some body =>
          match err_error body with
          | Some msg => if truthy_string msg then msg else "Failed to load weather."
          | None => "Failed to load weather."
          end
      | None => "Failed to load weather."
      end
  | None => "Failed to load weather."
  end.

(** The [catch] callback. *)
Definition onRejected (err : option HttpError) (vm : VM) : VM :=
  mkVM (query vm) (units vm) (loading vm) (Some (error_text err))
       (data vm) (groupedForecast vm) (slots vm).

(** The [finally] callback. *)
Definition onFinally (vm : VM) : VM :=
  mkVM (query vm) (units vm) false (error vm)
       (data vm) (groupedForecast vm) (slots vm).

(** The promise chain once the fetch has settled. *)
Definition search_settle (o : Outcome) (vm : VM) : VM :=
  let c := match o with
           | Resolved response => onFulfilled response vm
           | Rejected err => Throw vm err
           end in
  onFinally match c with
            | Normal vm' => vm'
            | Throw vm' err => onRejected err vm'
            end.

(** One search attempt, from the click to the settled promise. *)
Definition search (o : Outcome) (vm : VM) : VM :=
  search_settle o (search_begin vm).

End Host.

(** The controller's fields before the initial search. *)
Definition initial : VM :=
  mkVM "Sagar,IN" "metric" false None
       (mkPayload (Some (mkForecast (Some []))) None None) [] [].

(** A host on UTC, used to run the model on concrete inputs. *)
Definition utc : Z -> Z := fun _ => 0.

(** A label formatter for concrete runs: the day number of the date. *)
Definition dayNumberLabel (d : Date) : string :=
  match d with
  | InvalidDate => "Invalid Date"
  | TimeValue t => Z_toString (Day t)
  end.

(** A number printer for concrete runs: numerator over denominator. *)
Definition fractionText (q : Q) : string :=
  (Z_toString (Qnum q) ++ "/" ++ Z_toString (Zpos (Qden q)))%string.

(** ** Vocabulary of the properties *)

Section Vocabulary.
Variable LocalTZA : Z -> Z.

(** The timestamp of the sample is a representable date. *)
Definition validSample (item : Sample) : Prop :=
  Z.abs (dt item * 1000) <= maxTimeValue.

(** The viewer-local (year, month, day) of a sample. *)
Definition localDay (item : Sample) : jsnum * jsnum * jsnum :=
  let date := new_Date (dt item * 1000) in
  (getFullYear LocalTZA date, getMonth LocalTZA date, getDate LocalTZA date).

Definition sameLocalDay (a b : Sample) : bool :=
  match localDay a, localDay b with
  | (y1, m1, d1), (y2, m2, d2) =>
      jsnum_eqb y1 y2 && jsnum_eqb m1 m2 && jsnum_eqb d1 d2
  end.

(** The viewer-local hour of a sample with a valid timestamp. *)
Definition localHour (item : Sample) : Z :=
  HourFromTime (LocalTime LocalTZA (dt item * 1000)).

(** The day key of a sample. *)
Definition keyOf (item : Sample) : string :=
  dayKey LocalTZA (itemDate item).

(** Distance of a sample to a target hour. *)
Definition hourDistance (p : Sample * Z) : Z :=
  Z.abs (localHour (fst p) - snd p).

(** One turn of the inner loop of the slot matcher, on a (sample, hour)
    pair. *)
Definition pair_step (acc : option Sample * jsnum) (p : Sample * Z)
  : option Sample * jsnum :=
  slot_hour_step (fst p) (getHours LocalTZA (itemDate (fst p))) acc (snd p).

End Vocabulary.

(** Keys in order of first encounter. *)
Fixpoint distinct (ks : list string) : list string :=
  match ks with
  | [] => []
  | k :: rest => k :: remove string_dec k (distinct rest)
  end.

Section GroupingVocabulary.
Variable LocalTZA : Z -> Z.
Variable toLocaleDateString : Date -> string.

(** The samples of the day key [k], in input order. *)
Definition samplesOf (l : list Sample) (k : string) : list Sample :=
  filter (fun it => String.eqb (keyOf LocalTZA it) k) l.

(** The bucket of the day key [k]: labelled from its first sample. *)
Definition bucketOf (l : list Sample) (k : string) : Bucket :=
  mkBucket match samplesOf l k with
           | it :: _ => toLocaleDateString (itemDate it)
           | [] => ""
           end
           (samplesOf l k).

(** The day keys of an input in order of first encounter. *)
Definition dayKeys (l : list Sample) : list string :=
  distinct (map (keyOf LocalTZA) l).

End GroupingVocabulary.

(** ** Concrete inputs *)

Definition sampleAt (seconds : Z) : Sample := mkSample seconds (20 # 1) "01d".

(** Six samples at midnight UTC of six consecutive days. *)
Definition sixDays : list Sample :=
  map (fun d => sampleAt (d * 86400)) [0; 1; 2; 3; 4; 5].

(** Two samples of the first day, five of the following days, then a third
    sample of the first day. *)
Definition mixedDays : list Sample :=
  [ sampleAt 0; sampleAt 10800; sampleAt 86400; sampleAt 172800;
    sampleAt 259200; sampleAt 345600; sampleAt 432000; sampleAt 21600 ].

(** Samples at 05:00, 13:00 and 20:00 UTC of the first day. *)
Definition threeHours : list Sample :=
  [ sampleAt (5 * 3600); sampleAt (13 * 3600); sampleAt (20 * 3600) ].

(** The controller after a first search that succeeded with six days. *)
Definition loaded : VM :=
  search utc dayNumberLabel
         (Resolved (Some (mkPayload (Some (mkForecast (Some sixDays)))
                                    (Some (mkCurrent (20 # 1))) None)))
         initial.

(** The cross product in iteration order: items outer, hours inner. *)
Definition pairs (its : list Sample) (hs : list Z) : list (Sample * Z) :=
  flat_map (fun it => map (pair it) hs) its.

(** The second of the four fixed slots. *)
Definition Afternoon : Slot := nth 1 buildTimeSlots (mkSlot "" None).

(** A decimal numeral with at least one digit. *)
Definition int_nonnil (i : Decimal.int) : Prop :=
  match i with
  | Decimal.Pos d | Decimal.Neg d => d <> Nil
  end.

(** The non-empty components of a place, in the order name, state, country. *)
Definition present (v : option string) : list string :=
  match v with
  | Some (String c s) => [String c s]
  | _ => []
  end.

Definition components (p : Place) : list string :=
  present (name p) ++ present (state p) ++ present (country p).

(** Components separated by a comma and a space. *)
Fixpoint commaJoin (cs : list string) : string :=
  match cs with
  | [] => ""
  | [c] => c
  | c :: rest => (c ++ ", " ++ commaJoin rest)%string
  end.

(** ** The rest of the controller *)

Definition legendLowLabel (units : string) : string :=
  if String.eqb units "imperial" then "≤ 32°F"
  else if String.eqb units "metric" then "≤ 0°C"
  else "≤ 273K".

Definition legendMidLabel (units : string) : string :=
  if String.eqb units "imperial" then "60–75°F"
  else if String.eqb units "metric" then "15–24°C"
  else "288–297K".

Definition legendHighLabel (units : string) : string :=
  if String.eqb units "imperial" then "≥ 90°F"
  else if String.eqb units "metric" then "≥ 32°C"
  else "≥ 305K".

(** [vm.localTZLabel]; the argument is the time zone name the host's
    [Intl.DateTimeFormat().resolvedOptions()] reports. *)
Definition localTZLabel (timeZone : option string) : string :=
  match timeZone with
  | Some tz => if truthy_string tz then tz else "local time"
  | None => "local time"
  end.

(** The timestamp of the sample is a representable date, as a test. *)
Definition validSampleb (item : Sample) : bool :=
  Z.abs (dt item * 1000) <=? maxTimeValue.

(** A run of search attempts, each settled before the next begins. *)
Definition searches (LocalTZA : Z -> Z) (toLocaleDateString : Date -> string)
           (os : list Outcome) (vm : VM) : VM :=
  fold_left (fun vm o => search LocalTZA toLocaleDateString o vm) os vm.

(** The search succeeded: a response with current conditions and a
    forecast object. *)
Definition succeeded (o : Outcome) : bool :=
  match o with
  | Resolved (Some d) =>
      match current d, forecast d with
      | Some _, Some _ => true
      | _, _ => false
      end
  | _ => false
  end.

(** What every search leaves behind: the indicator off, at most five
    non-empty buckets, and the slots empty with an empty grid or else the
    four fixed ones. *)
Definition settled (vm : VM) : Prop :=
  loading vm = false /\
  (List.length (groupedForecast vm) <= 5)%nat /\
  (forall b, In b (groupedForecast vm) -> items b <> []) /\
  ((groupedForecast vm = [] /\ slots vm = []) \/ slots vm = buildTimeSlots).

(** The value of [hue] for a clamped temperature [c] and bounds [lo], [hi]. *)
Definition hueAt (lo hi c : Q) : Q :=
  Number_mul (Number_sub 1 (Number_div (Number_sub c lo) (Number_sub hi lo)))
             (220 # 1).


(** ** The request of [WeatherApi.fetchByCity]

    The serializer of [URLSearchParams] works on the UTF-8 bytes of a
    string: [urlencode] and [fetchByCity_url] take those bytes, and
    [ToUTF8] and [fetchByCity_request] below derive them from the code
    units of the JavaScript string. *)

(** The bytes the urlencoded serializer leaves as they are: ASCII letters
    and digits, and the four characters * - . _ *)
Definition is_unreserved (c : ascii) : bool :=
  let n := N_of_ascii c in
  (((48 <=? n) && (n <=? 57)) || ((65 <=? n) && (n <=? 90))
   || ((97 <=? n) && (n <=? 122))
   || (n =? 42) || (n =? 45) || (n =? 46) || (n =? 95))%N.

(** An upper-case hexadecimal digit. *)
Definition hexDigit (n : N) : ascii :=
  ascii_of_N (if (n <? 10)%N then 48 + n else 55 + n)%N.

Definition percent_encode_byte (c : ascii) : string :=
  let n := N_of_ascii c in
  String "%" (String (hexDigit (n / 16)%N) (String (hexDigit (n mod 16)%N) "")).

(** One byte of a name or value: kept, a space as a plus sign, or
    percent-encoded. *)
Definition urlencoded_byte (c : ascii) : string :=
  if is_unreserved c then String c ""
  else if Ascii.eqb c " " then "+"
  else percent_encode_byte c.

Fixpoint urlencode (s : string) : string :=
  match s with
  | EmptyString => ""
  | String c rest => (urlencoded_byte c ++ urlencode rest)%string
  end.

(** [params.toString()]: the pairs as name=value, with an ampersand before
    every pair but the first. *)
Definition URLSearchParams_toString (params : list (string * string)) : string :=
  fold_left
    (fun output p =>
       let output := if truthy_string output then (output ++ "&")%string
                     else output in
       (output ++ urlencode (fst p) ++ "=" ++ urlencode (snd p))%string)
    params "".

(** The URL that [fetchByCity(q, units)] requests. *)
Definition fetchByCity_url (q units : string) : string :=
  ("/api/weather?" ++ URLSearchParams_toString [("q", q); ("units", units)])%string.

(** A JavaScript string: its 16-bit code units. *)
Definition JsString : Type := list N.

Definition isHighSurrogate (u : N) : bool := ((55296 <=? u) && (u <=? 56319))%N.
Definition isLowSurrogate (u : N) : bool := ((56320 <=? u) && (u <=? 57343))%N.

(** The conversion to scalar values that [URLSearchParams] applies to a
    string: a surrogate pair is one code point, a surrogate without its
    partner becomes U+FFFD. *)
Fixpoint toUSVString (units : JsString) : list N :=
  match units with
  | [] => []
  | u :: rest =>
      if isHighSurrogate u then
        match rest with
        | v :: rest' =>
            if isLowSurrogate v
            then (65536 + (u - 55296) * 1024 + (v - 56320))%N :: toUSVString rest'
            else 65533%N :: toUSVString rest
        | [] => [65533%N]
        end
      else if isLowSurrogate u then 65533%N :: toUSVString rest
      else u :: toUSVString rest
  end.

(** The UTF-8 bytes of a scalar value. *)
Definition utf8_bytes (cp : N) : string :=
  let byte (n : N) := ascii_of_N n in
  if (cp <? 128)%N then String (byte cp) ""
  else if (cp <? 2048)%N then
    String (byte (192 + cp / 64)%N) (String (byte (128 + cp mod 64)%N) "")
  else if (cp <? 65536)%N then
    String (byte (224 + cp / 4096)%N)
      (String (byte (128 + (cp / 64) mod 64)%N)
         (String (byte (128 + cp mod 64)%N) ""))
  else
    String (byte (240 + cp / 262144)%N)
      (String (byte (128 + (cp / 4096) mod 64)%N)
         (String (byte (128 + (cp / 64) mod 64)%N)
            (String (byte (128 + cp mod 64)%N) ""))).

(** The bytes the serializer encodes for a string. *)
Definition ToUTF8 (text : JsString) : string :=
  fold_right (fun cp out => (utf8_bytes cp ++ out)%string) "" (toUSVString text).

(** The URL that [fetchByCity(q, units)] requests, from the strings
    themselves. *)
Definition fetchByCity_request (q units : JsString) : string :=
  fetchByCity_url (ToUTF8 q) (ToUTF8 units).

(** The code units of an ASCII text. *)
Definition ofAscii (text : string) : JsString :=
  map N_of_ascii (list_ascii_of_string text).

(** The value of a hexadecimal digit, for reading an encoded byte back. *)
Definition hexValue (c : ascii) : option N :=
  let n := N_of_ascii c in
  if ((48 <=? n) && (n <=? 57))%N then Some (n - 48)%N
  else if ((65 <=? n) && (n <=? 70))%N then Some (n - 55)%N
  else None.

(** Reading back the first encoded byte of a text; an ampersand or the end
    of the text reads as nothing. *)
Definition decode_head (s : string) : option (ascii * string) :=
  match s with
  | EmptyString => None
  | String c r =>
      if is_unreserved c then Some (c, r)
      else if Ascii.eqb c "+" then Some (" "%char, r)
      else if Ascii.eqb c "%" then
        match r with
        | String h (String l r') =>
            match hexValue h, hexValue l with
            | Some a, Some b => Some (ascii_of_N (16 * a + b)%N, r')
            | _, _ => None
            end
        | _ => None
        end
      else None
  end.

(** The characters an encoded name or value is made of. *)
Definition urlsafe (c : ascii) : bool :=
  is_unreserved c || Ascii.eqb c "+" || Ascii.eqb c "%".

(** ** More concrete inputs *)

(** The bucket of the first day of [mixedDays]. *)
Definition firstDayBucket : Bucket :=
  bucketOf utc dayNumberLabel mixedDays "1970-1-1".

(** A sample of the second day between two samples of the first. *)
Definition twoDaysInterleaved : list Sample :=
  [ sampleAt 0; sampleAt 86400; sampleAt 10800 ].

(** Samples at 11:00 and at 12:00 UTC of the first day. *)
Definition beforeAndAtNoon : list Sample :=
  [ sampleAt (11 * 3600); sampleAt (12 * 3600) ].

(** A response with current conditions and a forecast of six days. *)
Definition sixDaysResponse : Payload :=
  mkPayload (Some (mkForecast (Some sixDays))) (Some (mkCurrent (20 # 1))) None.

(** A response with current conditions and no forecast object. *)
Definition noForecastResponse : Payload :=
  mkPayload None (Some (mkCurrent (20 # 1))) None.

(** A rejection that carries the server's error text. *)
Definition cityNotFound : Outcome :=
  Rejected (Some (mkHttpError (Some (mkErrorBody (Some "city not found"))))).

(** * Properties *)

(** ** Decimal text and day keys *)

Lemma string_app_assoc (a b c : string) :
  ((a ++ b) ++ c = a ++ (b ++ c))%string.
Proof.
  induction a as [|ch a IH]; simpl; [reflexivity | now rewrite IH].
Qed.

Lemma uint_text_sep (d1 : uint) : forall (d2 : uint) (r1 r2 : string),
  (NilEmpty.string_of_uint d1 ++ String "-" r1
   = NilEmpty.string_of_uint d2 ++ String "-" r2)%string ->
  d1 = d2 /\ r1 = r2.
Proof.
  induction d1; destruct d2; simpl; intros r1 r2 H;
    try discriminate H;
    injection H as H;
    try (apply IHd1 in H; destruct H; subst); auto.
Qed.

Lemma uint_text_inj (d1 d2 : uint) :
  NilEmpty.string_of_uint d1 = NilEmpty.string_of_uint d2 -> d1 = d2.
Proof.
  intros H.
  assert (E : Some d1 = Some d2)
    by (rewrite <- (NilEmpty.usu d1), <- (NilEmpty.usu d2); now rewrite H).
  now injection E.
Qed.

Lemma Z_to_int_nonnil (z : Z) : int_nonnil (Z.to_int z).
Proof.
  destruct z; simpl.
  - discriminate.
  - apply DecimalPos.Unsigned.to_uint_nonnil.
  - apply DecimalPos.Unsigned.to_uint_nonnil.
Qed.

Lemma Z_to_int_inj (a b : Z) : Z.to_int a = Z.to_int b -> a = b.
Proof.
  intros H. rewrite <- (DecimalZ.of_to a), <- (DecimalZ.of_to b).
  now rewrite H.
Qed.

Lemma Z_toString_inj (a b : Z) : Z_toString a = Z_toString b -> a = b.
Proof.
  unfold Z_toString. intros H. apply Z_to_int_inj.
  assert (E : Some (Z.to_int a) = Some (Z.to_int b))
    by (rewrite <- (NilEmpty.isi (Z.to_int a)), <- (NilEmpty.isi (Z.to_int b));
        now rewrite H).
  now injection E.
Qed.

Lemma Z_toString_sep (a b : Z) (r1 r2 : string) :
  (Z_toString a ++ String "-" r1 = Z_toString b ++ String "-" r2)%string ->
  a = b /\ r1 = r2.
Proof.
  unfold Z_toString.
  pose proof (Z_to_int_nonnil a) as Na. pose proof (Z_to_int_nonnil b) as Nb.
  intros H.
  assert (E : Z.to_int a = Z.to_int b /\ r1 = r2).
  { destruct (Z.to_int a) as [d1|d1], (Z.to_int b) as [d2|d2]; simpl in *.
    - apply uint_text_sep in H. destruct H; subst; auto.
    - destruct d1; simpl in H; try discriminate H. now elim Na.
    - destruct d2; simpl in H; try discriminate H. now elim Nb.
    - injection H as H. apply uint_text_sep in H. destruct H; subst; auto. }
  destruct E as [E ->]. split; [now apply Z_to_int_inj | reflexivity].
Qed.

Lemma Z_toString_not_NaN (z : Z) (r r' : string) :
  (Z_toString z ++ r)%string <> String "N" r'.
Proof.
  unfold Z_toString. pose proof (Z_to_int_nonnil z) as Nz.
  destruct (Z.to_int z) as [d|d]; simpl in *.
  - destruct d; simpl; try discriminate. now elim Nz.
  - discriminate.
Qed.

Lemma jsnum_eqb_eq (a b : jsnum) : jsnum_eqb a b = true <-> a = b.
Proof.
  destruct a, b; simpl; split; intros H;
    try discriminate H; try reflexivity.
  - apply Z.eqb_eq in H. now subst.
  - injection H as ->. apply Z.eqb_refl.
Qed.

Section DayKeys.
Variable LocalTZA : Z -> Z.

Lemma sameLocalDay_spec (a b : Sample) :
  sameLocalDay LocalTZA a b = true <-> localDay LocalTZA a = localDay LocalTZA b.
Proof.
  unfold sameLocalDay.
  destruct (localDay LocalTZA a) as [[y1 m1] d1].
  destruct (localDay LocalTZA b) as [[y2 m2] d2].
  rewrite !andb_true_iff, !jsnum_eqb_eq. split.
  - intros [[-> ->] ->]. reflexivity.
  - intros [= -> -> ->]. auto.
Qed.

(** Two samples have the same day key exactly when they have the same
    viewer-local (year, month, day). *)
Lemma keyOf_eq_iff (a b : Sample) :
  keyOf LocalTZA a = keyOf LocalTZA b <-> localDay LocalTZA a = localDay LocalTZA b.
Proof.
  unfold keyOf, localDay, itemDate, dayKey. split.
  - destruct (new_Date (dt a * 1000)) as [|ta], (new_Date (dt b * 1000)) as [|tb];
      simpl; intros H.
    + reflexivity.
    + symmetry in H. rewrite !string_app_assoc in H.
      now apply Z_toString_not_NaN in H.
    + rewrite !string_app_assoc in H. now apply Z_toString_not_NaN in H.
    + rewrite !string_app_assoc in H. simpl in H.
      apply Z_toString_sep in H. destruct H as [Hy H].
      apply Z_toString_sep in H. destruct H as [Hm H].
      apply Z_toString_inj in H.
      assert (Hm' : MonthFromTime (LocalTime LocalTZA ta)
                    = MonthFromTime (LocalTime LocalTZA tb)) by lia.
      now rewrite Hy, Hm', H.
  - intros [= Hy Hm Hd]. now rewrite Hy, Hm, Hd.
Qed.

Lemma keyOf_eqb_sameLocalDay (a b : Sample) :
  String.eqb (keyOf LocalTZA b) (keyOf LocalTZA a) = sameLocalDay LocalTZA a b.
Proof.
  destruct (sameLocalDay LocalTZA a b) eqn:E.
  - apply String.eqb_eq. apply keyOf_eq_iff. symmetry. now apply sameLocalDay_spec.
  - apply String.eqb_neq. intros H. apply keyOf_eq_iff in H.
    symmetry in H. apply sameLocalDay_spec in H. congruence.
Qed.

End DayKeys.

(** ** Keys in order of first encounter *)

Lemma distinct_In (ks : list string) (k : string) :
  In k (distinct ks) <-> In k ks.
Proof.
  induction ks as [|a ks IH]; simpl; [tauto|].
  split.
  - intros [->|H]; [now left|]. apply in_remove in H. right. now apply IH.
  - intros [->|H]; [now left|].
    destruct (string_dec a k) as [->|Hne]; [now left|].
    right. apply in_in_remove; [congruence | now apply IH].
Qed.

Lemma NoDup_remove_keeps (k : string) (ks : list string) :
  NoDup ks -> NoDup (remove string_dec k ks).
Proof.
  induction 1 as [|a ks Ha Hnd IH]; simpl; [constructor|].
  destruct (string_dec k a); [assumption|].
  constructor; [|assumption].
  intros H. apply in_remove in H. tauto.
Qed.

Lemma distinct_NoDup (ks : list string) : NoDup (distinct ks).
Proof.
  induction ks as [|a ks IH]; simpl; constructor.
  - apply remove_In.
  - now apply NoDup_remove_keeps.
Qed.

Lemma distinct_snoc (ks : list string) (k : string) :
  distinct (ks ++ [k])
  = if in_dec string_dec k ks then distinct ks else distinct ks ++ [k].
Proof.
  induction ks as [|a ks IH]; simpl.
  - reflexivity.
  - rewrite IH. destruct (string_dec a k) as [->|Hne].
    + destruct (in_dec string_dec k ks) as [Hin|Hnin]; [reflexivity|].
      rewrite remove_app. simpl.
      destruct (string_dec k k) as [_|C]; [|now elim C].
      now rewrite app_nil_r.
    + destruct (in_dec string_dec k ks) as [Hin|Hnin]; [reflexivity|].
      rewrite remove_app. simpl.
      destruct (string_dec a k) as [C|_]; [now elim Hne|]. reflexivity.
Qed.

(** ** The object [grouped] *)

Lemma obj_get_absent (o : JsObject) (k : string) :
  ~ In k (map fst o) -> obj_get o k = None.
Proof.
  induction o as [|[k' b] o IH]; simpl; intros H; [reflexivity|].
  destruct (String.eqb_spec k' k) as [->|Hne]; [tauto|]. apply IH. tauto.
Qed.

Lemma obj_get_present (o : JsObject) (k : string) :
  In k (map fst o) -> exists b, obj_get o k = Some b.
Proof.
  induction o as [|[k' b] o IH]; simpl; intros H; [contradiction|].
  destruct (String.eqb_spec k' k) as [->|Hne]; [now exists b|].
  apply IH. destruct H; [contradiction | assumption].
Qed.

Lemma obj_set_fresh (o : JsObject) (k : string) (b : Bucket) :
  ~ In k (map fst o) -> obj_set o k b = o ++ [(k, b)].
Proof.
  induction o as [|[k' b'] o IH]; simpl; intros H; [reflexivity|].
  destruct (String.eqb_spec k' k) as [->|Hne]; [tauto|].
  rewrite IH; tauto.
Qed.

Lemma obj_push_item_last (o : JsObject) (k : string) (b : Bucket) (x : Sample) :
  ~ In k (map fst o) ->
  obj_push_item (o ++ [(k, b)]) k x
  = o ++ [(k, mkBucket (label b) (items b ++ [x]))].
Proof.
  induction o as [|[k' b'] o IH]; simpl; intros H.
  - now rewrite String.eqb_refl.
  - destruct (String.eqb_spec k' k) as [->|Hne]; [tauto|].
    rewrite IH; tauto.
Qed.

Lemma obj_push_item_absent (o : JsObject) (k : string) (x : Sample) :
  ~ In k (map fst o) -> obj_push_item o k x = o.
Proof.
  induction o as [|[k' b'] o IH]; simpl; intros H; [reflexivity|].
  destruct (String.eqb_spec k' k) as [->|Hne]; [tauto|].
  rewrite IH; tauto.
Qed.

(** Pushing on a table whose keys are distinct rewrites the one bucket of
    the key. *)
Lemma obj_push_item_table (f : string -> Bucket) (ks : list string)
      (k : string) (x : Sample) :
  NoDup ks ->
  obj_push_item (map (fun k' => (k', f k')) ks) k x
  = map (fun k' => (k', if String.eqb k' k
                        then mkBucket (label (f k')) (items (f k') ++ [x])
                        else f k')) ks.
Proof.
  induction 1 as [|a ks Ha Hnd IH]; simpl; [reflexivity|].
  destruct (String.eqb_spec a k) as [->|Hne].
  - f_equal. apply map_ext_in. intros k' Hk'.
    destruct (String.eqb_spec k' k) as [->|_]; [contradiction | reflexivity].
  - now rewrite IH.
Qed.

(** ** Day grouping *)

Section Grouping.
Variable LocalTZA : Z -> Z.
Variable toLocaleDateString : Date -> string.

Local Notation "'key'" := (keyOf LocalTZA).
Local Notation "'group'" := (buildGroupedForecast LocalTZA toLocaleDateString).
Local Notation "'samplesOf'" := (samplesOf LocalTZA).
Local Notation "'bucketOf'" := (bucketOf LocalTZA toLocaleDateString).
Local Notation "'dayKeys'" := (dayKeys LocalTZA).

Lemma samplesOf_snoc (l : list Sample) (x : Sample) (k : string) :
  samplesOf (l ++ [x]) k
  = samplesOf l k ++ (if String.eqb (key x) k then [x] else []).
Proof.
  unfold samplesOf. rewrite filter_app. simpl.
  now destruct (String.eqb (key x) k).
Qed.

Lemma samplesOf_nonempty (l : list Sample) (k : string) :
  In k (map key l) -> samplesOf l k <> [].
Proof.
  intros H. apply in_map_iff in H. destruct H as [it [Hk Hin]].
  assert (Hf : In it (samplesOf l k)).
  { apply filter_In. split; [assumption|]. now apply String.eqb_eq. }
  intros E. rewrite E in Hf. contradiction.
Qed.

Lemma samplesOf_empty (l : list Sample) (k : string) :
  ~ In k (map key l) -> samplesOf l k = [].
Proof.
  intros H. unfold samplesOf.
  destruct (filter (fun it => String.eqb (key it) k) l) as [|it r] eqn:E;
    [reflexivity|].
  assert (Hin : In it (filter (fun it => String.eqb (key it) k) l))
    by (rewrite E; now left).
  apply filter_In in Hin. destruct Hin as [Hin Hk].
  apply String.eqb_eq in Hk. elim H. apply in_map_iff. now exists it.
Qed.

(** What the [forEach] loop leaves in [grouped]. *)
Lemma grouped_table (l : list Sample) :
  fold_left (group_item LocalTZA toLocaleDateString) l []
  = map (fun k => (k, bucketOf l k)) (dayKeys l).
Proof.
  induction l as [|x l IH] using rev_ind; [reflexivity|].
  rewrite fold_left_app. simpl. rewrite IH. clear IH.
  unfold group_item, dayKeys. rewrite map_app. simpl.
  rewrite distinct_snoc. fold (key x). fold (dayKeys l).
  assert (Hkeys : map fst (map (fun k => (k, bucketOf l k)) (dayKeys l)) = dayKeys l).
  { rewrite map_map. simpl. apply map_id. }
  destruct (in_dec string_dec (key x) (map key l)) as [Hin|Hnin].
  - destruct (obj_get_present (map (fun k => (k, bucketOf l k)) (dayKeys l)) (key x))
      as [b ->].
    { rewrite Hkeys. now apply distinct_In. }
    rewrite obj_push_item_table by apply distinct_NoDup.
    apply map_ext_in. intros k Hk. f_equal.
    apply (proj1 (distinct_In _ k)) in Hk.
    pose proof (samplesOf_nonempty l k Hk) as Hne.
    unfold bucketOf. rewrite samplesOf_snoc.
    rewrite (String.eqb_sym k (key x)).
    destruct (String.eqb (key x) k); simpl.
    + destruct (samplesOf l k); [now elim Hne | reflexivity].
    + now rewrite app_nil_r.
  - assert (Hfresh : ~ In (key x)
                       (map fst (map (fun k => (k, bucketOf l k)) (dayKeys l)))).
    { rewrite Hkeys. intros C. now apply (proj1 (distinct_In _ _)) in C. }
    rewrite (obj_get_absent _ _ Hfresh), (obj_set_fresh _ _ _ Hfresh).
    rewrite (obj_push_item_last _ _ _ _ Hfresh).
    rewrite map_app. simpl. f_equal.
    + apply map_ext_in. intros k Hk. f_equal.
      apply (proj1 (distinct_In _ k)) in Hk.
      unfold bucketOf. rewrite samplesOf_snoc.
      destruct (String.eqb_spec (key x) k) as [E|_].
      * rewrite <- E in Hk. contradiction.
      * now rewrite app_nil_r.
    + unfold bucketOf. rewrite samplesOf_snoc, String.eqb_refl.
      rewrite (samplesOf_empty l (key x) Hnin). reflexivity.
Qed.

(** The grouper's output: the buckets of the first five day keys. *)
Lemma buildGroupedForecast_table (l : list Sample) :
  group (Some l) = map (bucketOf l) (firstn 5 (dayKeys l)).
Proof.
  unfold buildGroupedForecast, slice0, Object_values.
  rewrite grouped_table, map_map.
  change (map (fun k => snd (k, bucketOf l k)) (dayKeys l))
    with (map (bucketOf l) (dayKeys l)).
  apply firstn_map.
Qed.

Lemma firstFive_NoDup (l : list Sample) : NoDup (firstn 5 (dayKeys l)).
Proof.
  apply NoDup_app_remove_r with (l' := skipn 5 (dayKeys l)).
  rewrite firstn_skipn. apply distinct_NoDup.
Qed.

Lemma firstFive_skip_disjoint (l : list Sample) (k : string) :
  In k (firstn 5 (dayKeys l)) -> In k (skipn 5 (dayKeys l)) -> False.
Proof.
  pose proof (distinct_NoDup (map key l)) as Hnd.
  fold (dayKeys l) in Hnd. rewrite <- (firstn_skipn 5 (dayKeys l)) in Hnd.
  intros H1 H2. apply in_split in H2. destruct H2 as [s1 [s2 E]].
  rewrite E, app_assoc in Hnd. apply NoDup_remove_2 in Hnd.
  apply Hnd. apply in_or_app. left. apply in_or_app. now left.
Qed.

(** A sample sits in an output bucket only under its own day key, and that
    key is among the first five. *)
Lemma bucket_member (l : list Sample) (j : nat) (b : Bucket) (c : Sample) :
  nth_error (group (Some l)) j = Some b -> In c (items b) ->
  nth_error (firstn 5 (dayKeys l)) j = Some (key c).
Proof.
  rewrite buildGroupedForecast_table, nth_error_map.
  destruct (nth_error (firstn 5 (dayKeys l)) j) as [k|]; simpl; [|discriminate].
  intros [= <-]. simpl. intros Hc.
  change (In c (filter (fun it => String.eqb (key it) k) l)) in Hc.
  apply filter_In in Hc. destruct Hc as [_ Hk].
  apply String.eqb_eq in Hk. now rewrite Hk.
Qed.

(** C2 (as amended): the samples of one viewer-local calendar day whose key
    is among the first five day keys encountered all sit in one output
    bucket, in their input order, and in no other bucket; a sample whose
    day key comes later sits in no output bucket. *)
Theorem grouping_one_bucket_in_order (l : list Sample) (a : Sample) :
  In a l ->
  (In (key a) (firstn 5 (dayKeys l)) ->
   exists i b,
     nth_error (group (Some l)) i = Some b /\
     items b = filter (sameLocalDay LocalTZA a) l /\
     forall j b' c,
       nth_error (group (Some l)) j = Some b' -> In c (items b') ->
       localDay LocalTZA c = localDay LocalTZA a -> j = i) /\
  (~ In (key a) (firstn 5 (dayKeys l)) ->
   forall b, In b (group (Some l)) -> ~ In a (items b)).
Proof.
  intros Ha. split.
  - intros Hk. apply In_nth_error in Hk. destruct Hk as [i Hi].
    exists i, (bucketOf l (key a)). split; [|split].
    + rewrite buildGroupedForecast_table, nth_error_map, Hi. reflexivity.
    + simpl.
      change (filter (fun it => String.eqb (key it) (key a)) l
              = filter (sameLocalDay LocalTZA a) l).
      apply filter_ext. intros c.
      apply keyOf_eqb_sameLocalDay.
    + intros j b' c Hj Hc Hday.
      pose proof (bucket_member l j b' c Hj Hc) as Hjk.
      apply keyOf_eq_iff in Hday. rewrite Hday in Hjk.
      pose proof (firstFive_NoDup l) as Hnd.
      rewrite NoDup_nth_error in Hnd. apply Hnd.
      * apply nth_error_Some. rewrite Hjk. discriminate.
      * now rewrite Hjk, Hi.
  - intros Hk b Hb Hab. apply In_nth_error in Hb. destruct Hb as [j Hj].
    apply Hk. eapply nth_error_In. exact (bucket_member l j b a Hj Hab).
Qed.

(** C3: an input with more than five distinct day keys yields exactly five
    buckets, those of the first five keys in order of first encounter; the
    samples of every later key are in no bucket, and the result is an
    ordinary list. *)
Theorem day_cap (l : list Sample) :
  (5 < List.length (dayKeys l))%nat ->
  List.length (group (Some l)) = 5%nat /\
  group (Some l) = map (bucketOf l) (firstn 5 (dayKeys l)) /\
  (forall a b, In a l -> In (key a) (skipn 5 (dayKeys l)) ->
               In b (group (Some l)) -> ~ In a (items b)).
Proof.
  intros Hlen. split; [|split].
  - rewrite buildGroupedForecast_table, length_map, length_firstn. lia.
  - apply buildGroupedForecast_table.
  - intros a b Ha Hk Hb Hab. apply In_nth_error in Hb. destruct Hb as [j Hj].
    apply (firstFive_skip_disjoint l (key a)); [|assumption].
    eapply nth_error_In. exact (bucket_member l j b a Hj Hab).
Qed.

End Grouping.

(** ** Slot matching *)

Section Matching.
Variable LocalTZA : Z -> Z.

Local Notation "'find'" := (findForecastForSlot LocalTZA).
Local Notation "'dist'" := (hourDistance LocalTZA).
Local Notation "'step'" := (pair_step LocalTZA).

Lemma getHours_valid (it : Sample) :
  validSample it ->
  getHours LocalTZA (itemDate it) = Fin (localHour LocalTZA it).
Proof.
  unfold validSample, itemDate, new_Date, TimeClip. intros H.
  apply Z.leb_le in H. now rewrite H.
Qed.

(** The nested loops are one loop over the cross product. *)
Lemma fold_pairs (hs : list Z) (its : list Sample) :
  forall acc,
    fold_left (slot_item_step LocalTZA hs) its acc
    = fold_left step (pairs its hs) acc.
Proof.
  induction its as [|it its IH]; intros acc; simpl; [reflexivity|].
  rewrite fold_left_app, IH. f_equal.
  unfold slot_item_step. generalize acc. clear.
  induction hs as [|sh hs IH]; intros acc; simpl; [reflexivity|].
  now rewrite IH.
Qed.

Lemma step_finite (b : option Sample) (m : Z) (p : Sample * Z) :
  validSample (fst p) ->
  step (b, Fin m) p
  = if dist p <? m then (Some (fst p), Fin (dist p)) else (b, Fin m).
Proof.
  intros H. unfold pair_step, slot_hour_step.
  rewrite (getHours_valid _ H). reflexivity.
Qed.

Lemma step_first (b : option Sample) (p : Sample * Z) :
  validSample (fst p) ->
  step (b, Infinity) p = (Some (fst p), Fin (dist p)).
Proof.
  intros H. unfold pair_step, slot_hour_step.
  rewrite (getHours_valid _ H). reflexivity.
Qed.

(** Scanning from a finite bound: either nothing beats the bound, or the
    scan ends on the first pair of least distance. *)
Lemma scan_from_bound (P : list (Sample * Z)) :
  Forall (fun p => validSample (fst p)) P ->
  forall (b : option Sample) (m : Z),
    (Forall (fun q => m <= dist q) P /\ fold_left step P (b, Fin m) = (b, Fin m))
    \/
    (exists pre p post,
        P = pre ++ p :: post /\
        fold_left step P (b, Fin m) = (Some (fst p), Fin (dist p)) /\
        dist p < m /\
        (forall q, In q pre -> dist p < dist q) /\
        (forall q, In q post -> dist p <= dist q)).
Proof.
  induction 1 as [|q P Hq HP IH]; intros b m.
  - left. split; [constructor | reflexivity].
  - simpl. rewrite (step_finite b m q Hq).
    destruct (Z.ltb_spec (dist q) m) as [Hlt|Hge].
    + right. destruct (IH (Some (fst q)) (dist q)) as [[Hall E]|Hex].
      * exists [], q, P. simpl. repeat split; try assumption.
        -- intros ? [].
        -- intros r Hr. rewrite Forall_forall in Hall. now apply Hall.
      * destruct Hex as [pre [p [post [EP [E [Hlt' [Hpre Hpost]]]]]]].
        exists (q :: pre), p, post. subst P. simpl. repeat split; try assumption.
        -- lia.
        -- intros r [<-|Hr]; [assumption | now apply Hpre].
    + destruct (IH b m) as [[Hall E]|Hex].
      * left. split; [now constructor | assumption].
      * right. destruct Hex as [pre [p [post [EP [E [Hlt' [Hpre Hpost]]]]]]].
        exists (q :: pre), p, post. subst P. simpl. repeat split; try assumption.
        intros r [<-|Hr]; [lia | now apply Hpre].
Qed.

Lemma pairs_valid (its : list Sample) (hs : list Z) :
  Forall validSample its ->
  Forall (fun p => validSample (fst p)) (pairs its hs).
Proof.
  intros H. apply Forall_forall. intros [it sh] Hin.
  unfold pairs in Hin. apply in_flat_map in Hin.
  destruct Hin as [it' [Hit Hp]]. apply in_map_iff in Hp.
  destruct Hp as [sh' [[= <- <-] _]]. simpl.
  rewrite Forall_forall in H. now apply H.
Qed.

(** C4 (as amended): on a non-empty list of samples whose timestamps are
    representable dates and a non-empty hour set, the matcher returns the
    sample of the first pair,
    in the order items outer and hours inner, whose distance
    |local hour - target hour| is least over the whole cross product; with
    local hours 5, 13 and 20 and the Afternoon slot it returns the sample
    at hour 13. *)
Theorem slot_match_first_minimum (its : list Sample) (lbl : string) (hs : list Z) :
  Forall validSample its -> its <> [] -> hs <> [] ->
  (exists pre it sh post,
      pairs its hs = pre ++ (it, sh) :: post /\
      find (Some its) (mkSlot lbl (Some hs)) = Some it /\
      (forall q, In q pre -> dist (it, sh) < dist q) /\
      (forall q, In q post -> dist (it, sh) <= dist q))
  /\
  (forall a b c,
      validSample a -> validSample b -> validSample c ->
      localHour LocalTZA a = 5 -> localHour LocalTZA b = 13 ->
      localHour LocalTZA c = 20 ->
      hours Afternoon = Some [12; 15; 18] /\
      find (Some [a; b; c]) Afternoon = Some b).
Proof.
  intros Hvalid Hits Hhs. split.
  - unfold findForecastForSlot. simpl. rewrite fold_pairs.
    pose proof (pairs_valid its hs Hvalid) as HP.
    destruct its as [|it0 its']; [now elim Hits|].
    destruct hs as [|sh0 hs']; [now elim Hhs|].
    remember (pairs (it0 :: its') (sh0 :: hs')) as P eqn:EP.
    assert (EP' : exists P', P = (it0, sh0) :: P') by (subst P; simpl; eauto).
    destruct EP' as [P' ->]. clear EP.
    inversion HP as [|? ? H0 HP']; subst.
    simpl fold_left. rewrite (step_first None (it0, sh0) H0).
    destruct (scan_from_bound P' HP' (Some it0) (dist (it0, sh0)))
      as [[Hall E]|[pre [p [post [EP [E [Hlt [Hpre Hpost]]]]]]]].
    + exists [], it0, sh0, P'. simpl in *. rewrite E. repeat split.
      * intros ? [].
      * intros q Hq. rewrite Forall_forall in Hall. now apply Hall.
    + destruct p as [it sh]. exists ((it0, sh0) :: pre), it, sh, post.
      simpl in *. rewrite E, EP. repeat split; try assumption.
      intros q [<-|Hq]; [assumption | now apply Hpre].
  - intros a b c Ha Hb Hc H5 H13 H20. split; [reflexivity|].
    unfold findForecastForSlot, Afternoon. simpl.
    unfold slot_item_step.
    rewrite (getHours_valid a Ha), (getHours_valid b Hb), (getHours_valid c Hc).
    rewrite H5, H13, H20. reflexivity.
Qed.

(** The matcher has nothing to return without items or without hours. *)
Lemma find_no_hours (its : list Sample) :
  forall acc, fold_left (slot_item_step LocalTZA []) its acc = acc.
Proof.
  induction its as [|it its IH]; intros acc; simpl; [reflexivity | apply IH].
Qed.

End Matching.

(** ** Binary64 rounding *)

(** *** Powers of two *)
Lemma two_gt_one : (1 < 2)%Q. Proof. reflexivity. Qed.
Lemma two_nonzero : ~ (2 == 0)%Q. Proof. discriminate. Qed.

Lemma pow2_pos (k : Z) : (0 < pow2 k)%Q.
Proof. apply Qpower_0_lt. reflexivity. Qed.

Lemma pow2_add (a b : Z) : (pow2 (a + b) == pow2 a * pow2 b)%Q.
Proof. apply Qpower_plus, two_nonzero. Qed.

Lemma pow2_sub (a b : Z) : (pow2 (a - b) == pow2 a / pow2 b)%Q.
Proof. apply Qpower_minus, two_nonzero. Qed.

Lemma pow2_le (a b : Z) : a <= b -> (pow2 a <= pow2 b)%Q.
Proof. intros H. apply Qpower_le_compat_l; [exact H | discriminate]. Qed.

Lemma pow2_lt_inv (a b : Z) : (pow2 a < pow2 b)%Q -> a < b.
Proof. intros H. exact (Qpower_lt_compat_l_inv 2 a b H two_gt_one). Qed.

Lemma pow2_Z (k : Z) : 0 <= k -> (pow2 k == inject_Z (2 ^ k))%Q.
Proof. intros H. unfold pow2. now rewrite (Zpower_Qpower 2 k H). Qed.

(** *** Rounding to the nearest integer *)
Lemma rhe_cases (r : Q) :
  (roundHalfEven r = Qfloor r /\ ((r - inject_Z (Qfloor r)) * 2 <= 1)%Q /\
   (((r - inject_Z (Qfloor r)) * 2 == 1)%Q -> Z.even (Qfloor r) = true))
  \/
  (roundHalfEven r = Qfloor r + 1 /\ (1 <= (r - inject_Z (Qfloor r)) * 2)%Q /\
   (((r - inject_Z (Qfloor r)) * 2 == 1)%Q -> Z.even (Qfloor r) = false)).
Proof.
  unfold roundHalfEven. cbv zeta.
  destruct (Qcompare_spec ((r - inject_Z (Qfloor r)) * 2) 1) as [E|L|G].
  - destruct (Z.even (Qfloor r)) eqn:Ev.
    + left. repeat split; auto. rewrite E. apply Qle_refl.
    + right. repeat split; auto. rewrite E. apply Qle_refl.
  - left. split; [reflexivity|]. split; [now apply Qlt_le_weak|].
    intros E. rewrite E in L. discriminate L.
  - right. split; [reflexivity|]. split; [now apply Qlt_le_weak|].
    intros E. rewrite E in G. discriminate G.
Qed.

Lemma rhe_mono (r1 r2 : Q) : (r1 <= r2)%Q -> roundHalfEven r1 <= roundHalfEven r2.
Proof.
  intros H. pose proof (Qfloor_resp_le r1 r2 H) as Hf.
  destruct (rhe_cases r1) as [[E1 [B1 T1]]|[E1 [B1 T1]]];
  destruct (rhe_cases r2) as [[E2 [B2 T2]]|[E2 [B2 T2]]]; rewrite E1, E2; try lia.
  destruct (Z.eq_dec (Qfloor r1) (Qfloor r2)) as [Ef|Nf]; [|lia].
  exfalso. rewrite <- Ef in B2, T2.
  assert (Eq1 : ((r1 - inject_Z (Qfloor r1)) * 2 == 1)%Q) by (apply Qle_antisym; lra).
  assert (Eq2 : ((r2 - inject_Z (Qfloor r1)) * 2 == 1)%Q) by (apply Qle_antisym; lra).
  rewrite (T1 Eq1) in T2. specialize (T2 Eq2). discriminate T2.
Qed.

Lemma rhe_Z (k : Z) : roundHalfEven (inject_Z k) = k.
Proof.
  unfold roundHalfEven. rewrite Qfloor_Z.
  assert (E : ((inject_Z k - inject_Z k) * 2 ?= 1)%Q = Lt).
  { apply Qlt_alt.
    assert (E0 : ((inject_Z k - inject_Z k) * 2 == 0)%Q) by ring.
    rewrite E0. reflexivity. }
  now rewrite E.
Qed.

Lemma rhe_proper (r1 r2 : Q) : (r1 == r2)%Q -> roundHalfEven r1 = roundHalfEven r2.
Proof.
  intros E. apply Z.le_antisymm; apply rhe_mono; rewrite E; apply Qle_refl.
Qed.


(** *** The binade of a positive number *)
Lemma Qmake_pos_num (x : Q) : (0 < x)%Q -> 0 < Qnum x.
Proof. destruct x as [n d]. unfold Qlt. simpl. lia. Qed.

Lemma binade_candidate (x : Q) :
  (0 < x)%Q ->
  let e0 := Z.log2 (Qnum x) - Z.log2 (Zpos (Qden x)) in
  (pow2 (e0 - 1) <= x)%Q /\ (x < pow2 (e0 + 1))%Q.
Proof.
  intros Hx e0. pose proof (Qmake_pos_num x Hx) as Hn.
  destruct x as [n d]. cbn [Qnum Qden] in *. subst e0.
  set (a := Z.log2 n). set (b := Z.log2 (Zpos d)).
  pose proof (Z.log2_spec n Hn) as [Ha1 Ha2]. fold a in Ha1, Ha2.
  pose proof (Z.log2_spec (Zpos d) (Pos2Z.is_pos d)) as [Hb1 Hb2].
  fold b in Hb1, Hb2.
  pose proof (Z.log2_nonneg n) as Ha0. fold a in Ha0.
  pose proof (Z.log2_nonneg (Zpos d)) as Hb0. fold b in Hb0.
  assert (Hd : (0 < inject_Z (Zpos d))%Q) by reflexivity.
  rewrite (Qmake_Qdiv n d). split.
  - replace (a - b - 1) with (a - (b + 1)) by lia.
    rewrite pow2_sub, (pow2_Z a Ha0), (pow2_Z (b + 1)) by lia.
    assert (HB : (0 < inject_Z (2 ^ (b + 1)))%Q)
      by (rewrite <- (pow2_Z (b + 1)) by lia; apply pow2_pos).
    apply Qle_shift_div_l; [exact Hd|].
    setoid_replace (inject_Z (2 ^ a) / inject_Z (2 ^ (b + 1)) * inject_Z (Zpos d))%Q
      with (inject_Z (2 ^ a) * inject_Z (Zpos d) / inject_Z (2 ^ (b + 1)))%Q
      by (field; lra).
    apply Qle_shift_div_r; [exact HB|].
    rewrite <- !inject_Z_mult, <- Zle_Qle.
    unfold Z.succ in Hb2. nia.
  - replace (a - b + 1) with ((a + 1) - b) by lia.
    rewrite pow2_sub, (pow2_Z (a + 1)), (pow2_Z b Hb0) by lia.
    assert (HB : (0 < inject_Z (2 ^ b))%Q)
      by (rewrite <- (pow2_Z b Hb0); apply pow2_pos).
    apply Qlt_shift_div_r; [exact Hd|].
    setoid_replace (inject_Z (2 ^ (a + 1)) / inject_Z (2 ^ b) * inject_Z (Zpos d))%Q
      with (inject_Z (2 ^ (a + 1)) * inject_Z (Zpos d) / inject_Z (2 ^ b))%Q
      by (field; lra).
    apply Qlt_shift_div_l; [exact HB|].
    rewrite <- !inject_Z_mult, <- Zlt_Qlt.
    unfold Z.succ in Ha2. nia.
Qed.

Lemma binade_spec (x : Q) :
  (0 < x)%Q -> (pow2 (binade x) <= x)%Q /\ (x < pow2 (binade x + 1))%Q.
Proof.
  intros Hx. destruct (binade_candidate x Hx) as [Hlo Hhi].
  unfold binade.
  destruct (Qle_bool (pow2 (Z.log2 (Qnum x) - Z.log2 (Zpos (Qden x)))) x) eqn:E.
  - apply Qle_bool_iff in E. split; assumption.
  - split; [assumption|].
    replace (Z.log2 (Qnum x) - Z.log2 (Zpos (Qden x)) - 1 + 1)
      with (Z.log2 (Qnum x) - Z.log2 (Zpos (Qden x))) by lia.
    apply Qnot_le_lt. intros C. apply Qle_bool_iff in C. congruence.
Qed.

Lemma binade_mono (x y : Q) : (0 < x)%Q -> (x <= y)%Q -> binade x <= binade y.
Proof.
  intros Hx Hxy.
  assert (Hy : (0 < y)%Q) by lra.
  destruct (binade_spec x Hx) as [Hlo _].
  destruct (binade_spec y Hy) as [_ Hhi].
  assert (H : (pow2 (binade x) < pow2 (binade y + 1))%Q) by lra.
  apply pow2_lt_inv in H. lia.
Qed.

Lemma binade_proper (x y : Q) : (0 < x)%Q -> (x == y)%Q -> binade x = binade y.
Proof.
  intros Hx E. assert (Hy : (0 < y)%Q) by (rewrite <- E; exact Hx).
  apply Z.le_antisymm; apply binade_mono; try assumption; rewrite E; apply Qle_refl.
Qed.

(** *** Rounding to the nearest binary64 value *)

Lemma roundAt_mono (q : Z) (x y : Q) : (x <= y)%Q -> (roundAt q x <= roundAt q y)%Q.
Proof.
  intros H. unfold roundAt. apply Qmult_le_compat_r; [|apply Qlt_le_weak, pow2_pos].
  rewrite <- Zle_Qle. apply rhe_mono.
  unfold Qdiv. apply Qmult_le_compat_r; [exact H|].
  apply Qlt_le_weak, Qinv_lt_0_compat, pow2_pos.
Qed.

Lemma roundAt_multiple (q k : Z) : q <= k -> (roundAt q (pow2 k) == pow2 k)%Q.
Proof.
  intros H. unfold roundAt.
  assert (E : (pow2 k / pow2 q == inject_Z (2 ^ (k - q)))%Q).
  { rewrite <- pow2_sub. apply pow2_Z. lia. }
  rewrite (rhe_proper _ _ E), rhe_Z, <- (pow2_Z (k - q)) by lia.
  rewrite <- pow2_add. replace (k - q + q) with k by lia. reflexivity.
Qed.

Lemma roundMagnitude_roundAt (x : Q) :
  (0 < x)%Q -> roundMagnitude x = roundAt (quantum x) x.
Proof.
  intros Hx. unfold roundMagnitude.
  destruct (Qeq_bool x 0) eqn:E; [|reflexivity].
  apply Qeq_bool_iff in E. rewrite E in Hx. discriminate Hx.
Qed.

Lemma roundMagnitude_zero (x : Q) : (x == 0)%Q -> roundMagnitude x = 0%Q.
Proof.
  intros E. unfold roundMagnitude. apply Qeq_bool_iff in E. now rewrite E.
Qed.

Lemma roundAt_nonneg (q : Z) (x : Q) : (0 <= x)%Q -> (0 <= roundAt q x)%Q.
Proof.
  intros H. unfold roundAt. apply Qmult_le_0_compat; [|apply Qlt_le_weak, pow2_pos].
  change 0%Q with (inject_Z 0). rewrite <- Zle_Qle.
  rewrite <- (rhe_Z 0). apply rhe_mono. change (inject_Z 0) with 0%Q.
  apply Qle_shift_div_l; [apply pow2_pos|]. lra.
Qed.

Lemma roundMagnitude_nonneg (x : Q) : (0 <= x)%Q -> (0 <= roundMagnitude x)%Q.
Proof.
  intros H. unfold roundMagnitude. destruct (Qeq_bool x 0); [apply Qle_refl|].
  now apply roundAt_nonneg.
Qed.

Lemma roundMagnitude_mono (x y : Q) :
  (0 <= x)%Q -> (x <= y)%Q -> (roundMagnitude x <= roundMagnitude y)%Q.
Proof.
  intros Hx Hxy.
  destruct (Qeq_bool x 0) eqn:Ex.
  - apply Qeq_bool_iff in Ex. rewrite (roundMagnitude_zero x Ex).
    apply roundMagnitude_nonneg. lra.
  - apply Qeq_bool_neq in Ex.
    assert (Hx' : (0 < x)%Q).
    { apply Qnot_le_lt. intros C. apply Ex. apply Qle_antisym; assumption. }
    assert (Hy' : (0 < y)%Q) by lra.
    rewrite (roundMagnitude_roundAt x Hx'), (roundMagnitude_roundAt y Hy').
    pose proof (binade_mono x y Hx' Hxy) as Hb.
    destruct (Z.eq_dec (quantum x) (quantum y)) as [Eq|Nq].
    + rewrite Eq. now apply roundAt_mono.
    + assert (Hq : quantum x < quantum y) by (unfold quantum in *; lia).
      assert (Hqy : quantum y = binade y - 52) by (unfold quantum in *; lia).
      assert (Hbx : binade x + 1 <= binade y) by (unfold quantum in *; lia).
      destruct (binade_spec x Hx') as [_ Hxhi].
      destruct (binade_spec y Hy') as [Hylo _].
      apply Qle_trans with (pow2 (binade y)).
      * rewrite <- (roundAt_multiple (quantum x) (binade y)) by lia.
        apply roundAt_mono.
        apply Qle_trans with (pow2 (binade x + 1)); [lra | now apply pow2_le].
      * rewrite <- (roundAt_multiple (quantum y) (binade y)) at 1 by lia.
        now apply roundAt_mono.
Qed.

Lemma roundNumber_mono (x y : Q) :
  (x <= y)%Q -> (roundNumber x <= roundNumber y)%Q.
Proof.
  intros H. unfold roundNumber.
  destruct (Qle_bool 0 x) eqn:Ex; destruct (Qle_bool 0 y) eqn:Ey.
  - apply Qle_bool_iff in Ex. now apply roundMagnitude_mono.
  - apply Qle_bool_iff in Ex.
    assert (C : Qle_bool 0 y = true) by (apply Qle_bool_iff; lra). congruence.
  - assert (Hx : (x < 0)%Q).
    { apply Qnot_le_lt. intros C. apply Qle_bool_iff in C. congruence. }
    apply Qle_bool_iff in Ey.
    apply Qle_trans with 0%Q.
    + assert (H0 : (0 <= roundMagnitude (- x))%Q) by (apply roundMagnitude_nonneg; lra).
      lra.
    + now apply roundMagnitude_nonneg.
  - assert (Hy : (y < 0)%Q).
    { apply Qnot_le_lt. intros C. apply Qle_bool_iff in C. congruence. }
    apply Qopp_le_compat. apply roundMagnitude_mono; lra.
Qed.

Lemma roundNumber_proper (x y : Q) : (x == y)%Q -> (roundNumber x == roundNumber y)%Q.
Proof.
  intros E. apply Qle_antisym; apply roundNumber_mono; rewrite E; apply Qle_refl.
Qed.


(** *** The error of a rounding *)




(** ** Temperature colours *)

Lemma tempDomain_ordered (units : string) :
  (fst (tempDomain units) < snd (tempDomain units))%Q.
Proof.
  unfold tempDomain.
  destruct (String.eqb units "imperial"); [reflexivity|].
  destruct (String.eqb units "metric"); reflexivity.
Qed.



(** Below the domain the clamped value is the lower bound itself. *)
Lemma clamp_below (lo hi t : Q) :
  (lo < hi)%Q -> (t < lo)%Q -> Math_max lo (Math_min t hi) = lo.
Proof.
  intros Hd Ht.
  unfold Math_max, Math_min, Qmax, Qmin, GenericMinMax.gmax, GenericMinMax.gmin.
  assert (Ht' : (t < hi)%Q) by lra.
  rewrite Qlt_alt in Ht'. rewrite Ht'.
  rewrite Qgt_alt in Ht. now rewrite Ht.
Qed.

Lemma clamp_at_min (lo hi : Q) :
  (lo < hi)%Q -> Math_max lo (Math_min lo hi) = lo.
Proof.
  intros Hd.
  unfold Math_max, Math_min, Qmax, Qmin, GenericMinMax.gmax, GenericMinMax.gmin.
  rewrite Qlt_alt in Hd. rewrite Hd.
  assert (E : (lo ?= lo)%Q = Eq) by (apply Qeq_alt; reflexivity).
  now rewrite E.
Qed.

(** Above the domain the clamped value is the upper bound itself. *)
Lemma clamp_above (lo hi t : Q) :
  (lo < hi)%Q -> (hi < t)%Q -> Math_max lo (Math_min t hi) = hi.
Proof.
  intros Hd Ht.
  unfold Math_max, Math_min, Qmax, Qmin, GenericMinMax.gmax, GenericMinMax.gmin.
  rewrite Qgt_alt in Ht. rewrite Ht.
  rewrite Qlt_alt in Hd. now rewrite Hd.
Qed.

Lemma clamp_at_max (lo hi : Q) :
  (lo < hi)%Q -> Math_max lo (Math_min hi hi) = hi.
Proof.
  intros Hd.
  unfold Math_max, Math_min, Qmax, Qmin, GenericMinMax.gmax, GenericMinMax.gmin.
  assert (E : (hi ?= hi)%Q = Eq) by (apply Qeq_alt; reflexivity).
  rewrite E. rewrite Qlt_alt in Hd. now rewrite Hd.
Qed.

(** *** The hue *)

Lemma tempHue_hueAt (units : string) (t : Q) :
  tempHue units t
  = hueAt (fst (tempDomain units)) (snd (tempDomain units))
          (Math_max (fst (tempDomain units))
                    (Math_min t (snd (tempDomain units)))).
Proof. unfold tempHue. now destruct (tempDomain units). Qed.

Lemma tempDomain_cases (units : string) :
  tempDomain units = (-20 # 1, 110 # 1)%Q \/
  tempDomain units = (-10 # 1, 45 # 1)%Q \/
  tempDomain units = (260 # 1, 320 # 1)%Q.
Proof.
  unfold tempDomain.
  destruct (String.eqb units "imperial"); [now left|].
  destruct (String.eqb units "metric"); [right; now left | right; now right].
Qed.

(** The width [max - min] of a domain is computed without error and is
    positive. *)
Lemma domain_width_positive (units : string) :
  (0 < Number_sub (snd (tempDomain units)) (fst (tempDomain units)))%Q.
Proof.
  destruct (tempDomain_cases units) as [E|[E|E]]; rewrite E;
    vm_compute; reflexivity.
Qed.

Lemma hueAt_endpoints (units : string) :
  (hueAt (fst (tempDomain units)) (snd (tempDomain units))
         (fst (tempDomain units)) == 220 # 1)%Q /\
  (hueAt (fst (tempDomain units)) (snd (tempDomain units))
         (snd (tempDomain units)) == 0)%Q.
Proof.
  destruct (tempDomain_cases units) as [E|[E|E]]; rewrite E;
    split; vm_compute; reflexivity.
Qed.

(** Every step of the computation keeps or reverses the order, rounding
    included. *)
Lemma hueAt_antitone (lo hi c1 c2 : Q) :
  (0 < Number_sub hi lo)%Q -> (c1 <= c2)%Q ->
  (hueAt lo hi c2 <= hueAt lo hi c1)%Q.
Proof.
  intros Hd H. unfold hueAt, Number_mul, Number_sub, Number_div in *.
  apply roundNumber_mono. apply Qmult_le_compat_r; [|discriminate].
  apply roundNumber_mono. apply Qplus_le_r, Qopp_le_compat.
  apply roundNumber_mono. unfold Qdiv. apply Qmult_le_compat_r.
  - apply roundNumber_mono. lra.
  - apply Qlt_le_weak, Qinv_lt_0_compat. exact Hd.
Qed.




Lemma tempHue_below (units : string) (t : Q) :
  (t < fst (tempDomain units))%Q ->
  tempHue units t = tempHue units (fst (tempDomain units)).
Proof.
  pose proof (tempDomain_ordered units) as Hd. unfold tempHue.
  destruct (tempDomain units) as [lo hi]. simpl in *. intros Ht.
  now rewrite (clamp_below lo hi t Hd Ht), (clamp_at_min lo hi Hd).
Qed.

Lemma tempHue_above (units : string) (t : Q) :
  (snd (tempDomain units) < t)%Q ->
  tempHue units t = tempHue units (snd (tempDomain units)).
Proof.
  pose proof (tempDomain_ordered units) as Hd. unfold tempHue.
  destruct (tempDomain units) as [lo hi]. simpl in *. intros Ht.
  now rewrite (clamp_above lo hi t Hd Ht), (clamp_at_max lo hi Hd).
Qed.

Lemma tempDomain_unrecognized (units : string) :
  units <> "imperial" -> units <> "metric" ->
  tempDomain units = (260 # 1, 320 # 1)%Q.
Proof.
  intros H1 H2. unfold tempDomain.
  apply String.eqb_neq in H1, H2. now rewrite H1, H2.
Qed.

Section Colorizer.
Variable Number_toString : Q -> string.

Local Notation "'style'" := (tempStyle Number_toString).

(** C6: in every unit system a temperature below the minimum gets the style
    of the minimum, and one above the maximum the style of the maximum. *)
Theorem style_clamped (units : string) (t : Q) :
  ((t < fst (tempDomain units))%Q ->
   style units (Some t) = style units (Some (fst (tempDomain units)))) /\
  ((snd (tempDomain units) < t)%Q ->
   style units (Some t) = style units (Some (snd (tempDomain units)))).
Proof.
  split; intros H; unfold tempStyle.
  - now rewrite (tempHue_below units t H).
  - now rewrite (tempHue_above units t H).
Qed.

(** C7: a unit system that is neither "imperial" nor "metric" is coloured
    over the standard bounds 260 and 320, exactly as "standard" is. *)
Theorem unrecognized_units_standard_domain (units : string) :
  units <> "imperial" -> units <> "metric" ->
  tempDomain units = (260 # 1, 320 # 1)%Q /\
  tempDomain units = tempDomain "standard" /\
  (forall temp, style units temp = style "standard" temp) /\
  (tempHue units (260 # 1) == 220 # 1)%Q /\
  (tempHue units (320 # 1) == 0)%Q.
Proof.
  intros H1 H2. pose proof (tempDomain_unrecognized units H1 H2) as E.
  assert (Eh : forall t, tempHue units t = tempHue "standard" t)
    by (intros t; unfold tempHue; now rewrite E).
  split; [assumption|]. split; [now rewrite E|]. split.
  - intros [t|]; unfold tempStyle; [now rewrite Eh | reflexivity].
  - rewrite !Eh. split; reflexivity.
Qed.

End Colorizer.

(** C10: every unit system other than "imperial" and "standard" is labelled
    with the metric label, and when it is not "metric" either it is still
    coloured over the standard bounds 260 and 320. *)
Theorem unrecognized_units_metric_label (units : string) :
  units <> "imperial" -> units <> "standard" ->
  unitsLabel units = "°C" /\
  unitsLabel "metric" = "°C" /\
  (units <> "metric" -> tempDomain units = (260 # 1, 320 # 1)%Q).
Proof.
  intros H1 H2. split; [|split].
  - unfold unitsLabel. apply String.eqb_neq in H1, H2. now rewrite H1, H2.
  - reflexivity.
  - intros H3. now apply tempDomain_unrecognized.
Qed.

(** ** Place name *)

Lemma join_loop_commaJoin (cs : list string) :
  forall (c R : string) (k : nat),
    join_loop ", " (S k) (R ++ c)%string (map Some cs)
    = (R ++ commaJoin (c :: cs))%string.
Proof.
  induction cs as [|c' cs IH]; intros c R k.
  - reflexivity.
  - cbn [map join_loop].
    rewrite (IH c' ((R ++ c) ++ ", ")%string (S k)).
    cbn [commaJoin]. now rewrite !string_app_assoc.
Qed.

Lemma Array_join_commaJoin (cs : list string) :
  Array_join (map Some cs) ", " = commaJoin cs.
Proof.
  destruct cs as [|c cs]; [reflexivity|].
  unfold Array_join. cbn [map join_loop].
  now rewrite (join_loop_commaJoin cs c "" O).
Qed.

Lemma filter_Boolean_present (vs : list (option string)) :
  filter Boolean vs = map Some (flat_map present vs).
Proof.
  induction vs as [|v vs IH]; [reflexivity|].
  destruct v as [[|c s]|]; simpl; now rewrite IH.
Qed.

Lemma present_truthy (vs : list (option string)) (c : string) :
  In c (flat_map present vs) -> truthy_string c = true.
Proof.
  intros H. apply in_flat_map in H. destruct H as [v [_ Hc]].
  destruct v as [[|a s]|]; simpl in Hc; try contradiction.
  destruct Hc as [<-|[]]. reflexivity.
Qed.

Lemma commaJoin_truthy (c : string) (cs : list string) :
  truthy_string c = true -> truthy_string (commaJoin (c :: cs)) = true.
Proof.
  destruct c as [|a s]; [discriminate|]. intros _. now destruct cs.
Qed.

Lemma components_flat_map (p : Place) :
  components p = flat_map present [name p; state p; country p].
Proof.
  unfold components. simpl. now rewrite app_nil_r.
Qed.

Lemma placeName_of_place (p : Place) (f : option Forecast) (c : option Current) :
  placeName (mkPayload f c (Some p))
  = match components p with
    | [] => "Your location"
    | cs => commaJoin cs
    end.
Proof.
  unfold placeName. cbn [place].
  rewrite filter_Boolean_present, Array_join_commaJoin, <- components_flat_map.
  pose proof (present_truthy [name p; state p; country p]) as Ht.
  rewrite <- components_flat_map in Ht.
  destruct (components p) as [|c0 cs]; [reflexivity|].
  rewrite commaJoin_truthy; [reflexivity|]. apply Ht. now left.
Qed.

(** C9: the place name is the non-empty components among name, state and
    country, in that order, separated by a comma and a space; without any
    such component, and without a place record, it is "Your location". *)
Theorem placeName_components (data : Payload) :
  match place data with
  | Some p =>
      match components p with
      | [] => placeName data = "Your location"
      | cs => placeName data = commaJoin cs
      end
  | None => placeName data = "Your location"
  end.
Proof.
  destruct data as [f c [p|]]; cbn [place]; [|reflexivity].
  rewrite placeName_of_place. now destruct (components p).
Qed.

Example placeName_full :
  placeName (mkPayload None None
               (Some (mkPlace (Some "Sagar") (Some "Madhya Pradesh") (Some "IN"))))
  = "Sagar, Madhya Pradesh, IN".
Proof. reflexivity. Qed.

Example placeName_without_state :
  placeName (mkPayload None None (Some (mkPlace (Some "Sagar") (Some "") (Some "IN"))))
  = "Sagar, IN".
Proof. reflexivity. Qed.

Example placeName_all_empty :
  placeName (mkPayload None None (Some (mkPlace (Some "") None (Some ""))))
  = "Your location".
Proof. reflexivity. Qed.

(** ** The presenter *)

Section Presenter.
Variable LocalTZA : Z -> Z.
Variable toLocaleDateString : Date -> string.
Variable Number_toString : Q -> string.

Local Notation "'group'" := (buildGroupedForecast LocalTZA toLocaleDateString).
Local Notation "'find'" := (findForecastForSlot LocalTZA).
Local Notation "'run'" := (search LocalTZA toLocaleDateString).

(** C8: the grouper, the matcher and the colorizer are total functions of
    the embedding (they have no error result), and on absent or empty input
    they give the empty result: no buckets for a missing or empty list, no
    sample for missing or empty items and for a slot without hours (absent
    or empty), the empty style for a missing temperature. *)
Theorem core_functions_total :
  group None = [] /\
  group (Some []) = [] /\
  (forall slot, find None slot = None) /\
  (forall slot, find (Some []) slot = None) /\
  (forall items lbl, find items (mkSlot lbl None) = None) /\
  (forall items lbl, find items (mkSlot lbl (Some [])) = None) /\
  (forall units, tempStyle Number_toString units None = []).
Proof.
  repeat split; try reflexivity.
  - intros slot. unfold findForecastForSlot. now destruct (hours slot).
  - intros [its|] lbl; reflexivity.
  - intros [its|] lbl; [|reflexivity].
    unfold findForecastForSlot. cbn [hours]. now rewrite find_no_hours.
Qed.

(** A response without current conditions clears the grid, reports
    "No weather data found." and stops the loading indicator. *)
Lemma search_no_data (vm : VM) (response : option Payload) :
  match response with
  | Some d => current d = None
  | None => True
  end ->
  groupedForecast (run (Resolved response) vm) = [] /\
  error (run (Resolved response) vm) = Some "No weather data found." /\
  loading (run (Resolved response) vm) = false.
Proof.
  destruct response as [d|]; simpl.
  - intros H. unfold search, search_settle, onFulfilled. rewrite H. auto.
  - auto.
Qed.

(** A rejected fetch sets a message and stops the loading indicator, and
    leaves the data, the grid and the slots as they were. *)
Lemma search_rejected (vm : VM) (err : option HttpError) :
  groupedForecast (run (Rejected err) vm) = groupedForecast vm /\
  data (run (Rejected err) vm) = data vm /\
  slots (run (Rejected err) vm) = slots vm /\
  error (run (Rejected err) vm) = Some (error_text err) /\
  loading (run (Rejected err) vm) = false.
Proof. repeat split. Qed.

(** Every search attempt ends with the loading indicator off. *)
Lemma search_stops_loading (vm : VM) (o : Outcome) :
  loading (run o vm) = false.
Proof. reflexivity. Qed.

End Presenter.

(** ** The pipeline on concrete inputs *)

Example civil_epoch : civil_from_days 0 = (1970, 0, 1).
Proof. reflexivity. Qed.

Example civil_leap_day : civil_from_days 19782 = (2024, 1, 29).
Proof. reflexivity. Qed.

Example civil_before_epoch : civil_from_days (-1) = (1969, 11, 31).
Proof. reflexivity. Qed.

Example dayKey_utc : dayKey utc (new_Date (1700053200 * 1000)) = "2023-11-15".
Proof. reflexivity. Qed.

Example dayKey_half_hour_zone :
  dayKey (fun _ => 19800000) (new_Date (1700073000 * 1000)) = "2023-11-16".
Proof. reflexivity. Qed.

Example dayKey_invalid : dayKey utc (new_Date (10000000000000 * 1000)) = "NaN-NaN-NaN".
Proof. reflexivity. Qed.

Example hours_utc : getHours utc (new_Date (1700053200 * 1000)) = Fin 13.
Proof. reflexivity. Qed.

Example style_coldest :
  tempStyle fractionText "metric" (Some (-10 # 1)%Q)
  = [ ("color", "hsl(7740561859543040/35184372088832, 70%, 25%)");
      ("background-color", "hsl(7740561859543040/35184372088832, 85%, 90%)");
      ("border-radius", "0.25rem");
      ("padding", "0.25rem") ].
Proof. vm_compute. reflexivity. Qed.

Example group_mixedDays :
  map (fun b => map dt (items b))
      (buildGroupedForecast utc dayNumberLabel (Some mixedDays))
  = [[0; 10800; 21600]; [86400]; [172800]; [259200]; [345600]].
Proof. reflexivity. Qed.

Example night_slot_first_day :
  findForecastForSlot utc
    (Some (map (fun k => sampleAt (k * 10800)) [0; 1; 2; 3; 4; 5; 6; 7]))
    (nth 3 buildTimeSlots (mkSlot "" None))
  = Some (sampleAt 0).
Proof. reflexivity. Qed.

Example invalid_timestamp_no_match :
  findForecastForSlot utc (Some [sampleAt 10000000000000]) Afternoon = None.
Proof. reflexivity. Qed.

Example tie_goes_to_first :
  findForecastForSlot utc (Some [sampleAt (11 * 3600); sampleAt (13 * 3600)])
                      Afternoon
  = Some (sampleAt (11 * 3600)).
Proof. reflexivity. Qed.

(** C1: after a search that filled the grid, a search whose fetch rejects
    sets the message and stops the loading indicator but leaves the grid
    filled, where a response without current conditions empties it. *)
Theorem fetch_failure_keeps_grid :
  groupedForecast loaded <> [] /\
  groupedForecast (search utc dayNumberLabel (Rejected None) loaded)
  = groupedForecast loaded /\
  error (search utc dayNumberLabel (Rejected None) loaded)
  = Some "Failed to load weather." /\
  loading (search utc dayNumberLabel (Rejected None) loaded) = false /\
  groupedForecast (search utc dayNumberLabel (Resolved None) loaded) = [] /\
  error (search utc dayNumberLabel (Resolved None) loaded)
  = Some "No weather data found.".
Proof.
  split; [vm_compute; discriminate|].
  split; [vm_compute; reflexivity|].
  split; [vm_compute; reflexivity|].
  split; [reflexivity|].
  split; vm_compute; reflexivity.
Qed.

(** C2, as stated, fails on six days: the sample of the sixth day is in the
    input and in no bucket of the output. *)
Lemma sixth_day_in_no_bucket :
  In (sampleAt 432000) sixDays /\
  ~ exists b, In b (buildGroupedForecast utc dayNumberLabel (Some sixDays)) /\
              In (sampleAt 432000) (items b).
Proof.
  split.
  - simpl. tauto.
  - intros [b [Hb Hin]]. vm_compute in Hb.
    repeat (destruct Hb as [<-|Hb];
            [simpl in Hin; destruct Hin as [C|[]]; discriminate C|]).
    contradiction.
Qed.

(** C4, as stated, fails on a timestamp beyond the range of dates: the
    list is not empty, the Afternoon slot has its three hours, and the
    matcher returns nothing, because the hour of an invalid date is NaN
    and no comparison with NaN holds. *)
Lemma unrepresentable_timestamp_no_match :
  [sampleAt 10000000000000] <> [] /\
  hours Afternoon = Some [12; 15; 18] /\
  findForecastForSlot utc (Some [sampleAt 10000000000000]) Afternoon = None /\
  ~ validSample (sampleAt 10000000000000).
Proof.
  split; [discriminate|]. split; [reflexivity|]. split; [reflexivity|].
  intros H. vm_compute in H. apply H. reflexivity.
Qed.


(** The rounding of the model is the machine's: differences, quotients and
    products, and the whole hue, on binary64 operands. *)
Module Binary64Agreement.
Import PrimFloat.

Example sub_agrees :
  Binary64.agrees (Number_sub (20 # 1) (-10 # 1)) (20 - (-10))%float = true /\
  Binary64.agrees (Number_sub 1 (Number_div 1 (3 # 1))) (1 - 1 / 3)%float = true /\
  Binary64.agrees (Number_sub (1 # 1024) (3 # 1))
                  (0x1p-10 - 3)%float = true.
Proof. repeat split; vm_compute; reflexivity. Qed.

Example div_agrees :
  Binary64.agrees (Number_div (30 # 1) (55 # 1)) (30 / 55)%float = true /\
  Binary64.agrees (Number_div 1 (3 # 1)) (1 / 3)%float = true /\
  Binary64.agrees (Number_div (-7 # 1) (11 # 1)) (-7 / 11)%float = true /\
  Binary64.agrees (Number_div (pow2 (-1074)) (2 # 1)) (0x1p-1074 / 2)%float = true /\
  Binary64.agrees (Number_div (3 * pow2 (-1074)) (2 # 1))
                  (0x3p-1074 / 2)%float = true.
Proof. repeat split; vm_compute; reflexivity. Qed.

Example mul_agrees :
  Binary64.agrees (Number_mul (Number_div (5 # 1) (11 # 1)) (220 # 1))
                  ((5 / 11) * 220)%float = true /\
  Binary64.agrees (Number_mul (pow2 (-600)) (3 * pow2 (-500)))
                  (0x1p-600 * 0x3p-500)%float = true.
Proof. repeat split; vm_compute; reflexivity. Qed.

Example hue_agrees :
  Binary64.agrees (tempHue "metric" (20 # 1)) (Binary64.hue (-10) 45 20) = true /\
  Binary64.agrees (tempHue "metric" 0) (Binary64.hue (-10) 45 0) = true /\
  Binary64.agrees (tempHue "metric" (pow2 (-60)))
                  (Binary64.hue (-10) 45 0x1p-60) = true /\
  Binary64.agrees (tempHue "metric" (73 # 2)) (Binary64.hue (-10) 45 36.5) = true /\
  Binary64.agrees (tempHue "imperial" (285 # 4))
                  (Binary64.hue (-20) 110 71.25) = true /\
  Binary64.agrees (tempHue "standard" (2345 # 8))
                  (Binary64.hue 260 320 293.125) = true.
Proof. repeat split; vm_compute; reflexivity. Qed.

(** Two temperatures 2^-60 apart share a hue. *)
Example hue_not_strict :
  (tempHue "metric" (pow2 (-60)) == tempHue "metric" 0)%Q.
Proof. vm_compute. reflexivity. Qed.

End Binary64Agreement.

(** ** The theorems at concrete inputs *)

(** The first day of [mixedDays]: its three samples share the first bucket,
    in input order, though the third arrives after five other days. *)
Lemma grouping_one_bucket_in_order_witness :
  In (sampleAt 0) mixedDays /\
  In (keyOf utc (sampleAt 0)) (firstn 5 (dayKeys utc mixedDays)) /\
  exists i b,
    nth_error (buildGroupedForecast utc dayNumberLabel (Some mixedDays)) i
    = Some b /\
    items b = filter (sameLocalDay utc (sampleAt 0)) mixedDays /\
    forall j b' c,
      nth_error (buildGroupedForecast utc dayNumberLabel (Some mixedDays)) j
      = Some b' ->
      In c (items b') ->
      localDay utc c = localDay utc (sampleAt 0) -> j = i.
Proof.
  assert (Hin : In (sampleAt 0) mixedDays) by (left; reflexivity).
  assert (Hk : In (keyOf utc (sampleAt 0)) (firstn 5 (dayKeys utc mixedDays)))
    by (left; reflexivity).
  split; [exact Hin|]. split; [exact Hk|].
  exact (proj1 (grouping_one_bucket_in_order utc dayNumberLabel mixedDays
                  (sampleAt 0) Hin) Hk).
Defined.

Lemma day_cap_witness :
  (5 < List.length (dayKeys utc sixDays))%nat /\
  List.length (buildGroupedForecast utc dayNumberLabel (Some sixDays)) = 5%nat /\
  buildGroupedForecast utc dayNumberLabel (Some sixDays)
  = map (bucketOf utc dayNumberLabel sixDays) (firstn 5 (dayKeys utc sixDays)) /\
  (forall a b,
      In a sixDays -> In (keyOf utc a) (skipn 5 (dayKeys utc sixDays)) ->
      In b (buildGroupedForecast utc dayNumberLabel (Some sixDays)) ->
      ~ In a (items b)).
Proof.
  assert (H : (5 < List.length (dayKeys utc sixDays))%nat)
    by (vm_compute; apply le_n).
  split; [exact H|].
  exact (day_cap utc dayNumberLabel sixDays H).
Defined.

Lemma slot_match_first_minimum_witness :
  Forall validSample threeHours /\
  threeHours <> [] /\
  [12; 15; 18] <> [] /\
  (exists pre it sh post,
      pairs threeHours [12; 15; 18] = pre ++ (it, sh) :: post /\
      findForecastForSlot utc (Some threeHours)
                          (mkSlot "Afternoon" (Some [12; 15; 18])) = Some it /\
      (forall q, In q pre -> hourDistance utc (it, sh) < hourDistance utc q) /\
      (forall q, In q post -> hourDistance utc (it, sh) <= hourDistance utc q)) /\
  findForecastForSlot utc (Some threeHours) Afternoon
  = Some (sampleAt (13 * 3600)).
Proof.
  assert (Hv : forall s, In s threeHours -> validSample s).
  { intros s [<-|[<-|[<-|[]]]]; vm_compute; discriminate. }
  assert (H1 : Forall validSample threeHours) by (apply Forall_forall; exact Hv).
  assert (H2 : threeHours <> []) by discriminate.
  assert (H3 : [12; 15; 18] <> []) by discriminate.
  destruct (slot_match_first_minimum utc threeHours "Afternoon" [12; 15; 18]
              H1 H2 H3) as [Hmin Hex].
  split; [exact H1|]. split; [exact H2|]. split; [exact H3|].
  split; [exact Hmin|].
  apply (Hex (sampleAt (5 * 3600)) (sampleAt (13 * 3600)) (sampleAt (20 * 3600)));
    try reflexivity; apply Hv; simpl; tauto.
Defined.


Lemma style_clamped_witness :
  (-30 # 1 < fst (tempDomain "metric"))%Q /\
  tempStyle fractionText "metric" (Some (-30 # 1)%Q)
  = tempStyle fractionText "metric" (Some (fst (tempDomain "metric"))) /\
  (snd (tempDomain "imperial") < 150 # 1)%Q /\
  tempStyle fractionText "imperial" (Some (150 # 1)%Q)
  = tempStyle fractionText "imperial" (Some (snd (tempDomain "imperial"))).
Proof.
  assert (H1 : (-30 # 1 < fst (tempDomain "metric"))%Q) by reflexivity.
  assert (H2 : (snd (tempDomain "imperial") < 150 # 1)%Q) by reflexivity.
  split; [exact H1|].
  split; [exact (proj1 (style_clamped fractionText "metric" (-30 # 1)%Q) H1)|].
  split; [exact H2|].
  exact (proj2 (style_clamped fractionText "imperial" (150 # 1)%Q) H2).
Defined.

Lemma unrecognized_units_standard_domain_witness :
  "kelvin" <> "imperial" /\ "kelvin" <> "metric" /\
  tempDomain "kelvin" = (260 # 1, 320 # 1)%Q /\
  tempDomain "kelvin" = tempDomain "standard" /\
  (forall temp,
      tempStyle fractionText "kelvin" temp = tempStyle fractionText "standard" temp) /\
  (tempHue "kelvin" (260 # 1) == 220 # 1)%Q /\
  (tempHue "kelvin" (320 # 1) == 0)%Q.
Proof.
  assert (H1 : "kelvin" <> "imperial") by discriminate.
  assert (H2 : "kelvin" <> "metric") by discriminate.
  split; [exact H1|]. split; [exact H2|].
  exact (unrecognized_units_standard_domain fractionText "kelvin" H1 H2).
Defined.

Lemma unrecognized_units_metric_label_witness :
  "kelvin" <> "imperial" /\ "kelvin" <> "standard" /\ "kelvin" <> "metric" /\
  unitsLabel "kelvin" = "°C" /\
  tempDomain "kelvin" = (260 # 1, 320 # 1)%Q.
Proof.
  assert (H1 : "kelvin" <> "imperial") by discriminate.
  assert (H2 : "kelvin" <> "standard") by discriminate.
  assert (H3 : "kelvin" <> "metric") by discriminate.
  destruct (unrecognized_units_metric_label "kelvin" H1 H2) as [Hl [_ Hd]].
  split; [exact H1|]. split; [exact H2|]. split; [exact H3|].
  split; [exact Hl | exact (Hd H3)].
Defined.

(** * Further properties of the controller *)

(** ** Day keys *)

Section DayKeyFormat.
Variable LocalTZA : Z -> Z.

(** The day key, written without zero padding, still determines the local
    year, month and day, and an invalid date shares its key with no valid
    one: two dates have the same key exactly when their three getters
    agree. *)
Theorem dayKey_injective (d1 d2 : Date) :
  dayKey LocalTZA d1 = dayKey LocalTZA d2 <->
  (getFullYear LocalTZA d1, getMonth LocalTZA d1, getDate LocalTZA d1)
  = (getFullYear LocalTZA d2, getMonth LocalTZA d2, getDate LocalTZA d2).
Proof.
  unfold dayKey. split.
  - destruct d1 as [|ta], d2 as [|tb]; simpl; intros H.
    + reflexivity.
    + symmetry in H. rewrite !string_app_assoc in H.
      now apply Z_toString_not_NaN in H.
    + rewrite !string_app_assoc in H. now apply Z_toString_not_NaN in H.
    + rewrite !string_app_assoc in H. simpl in H.
      apply Z_toString_sep in H. destruct H as [Hy H].
      apply Z_toString_sep in H. destruct H as [Hm H].
      apply Z_toString_inj in H.
      assert (Hm' : MonthFromTime (LocalTime LocalTZA ta)
                    = MonthFromTime (LocalTime LocalTZA tb)) by lia.
      now rewrite Hy, Hm', H.
  - intros [= Hy Hm Hd]. now rewrite Hy, Hm, Hd.
Qed.

End DayKeyFormat.

(** ** Day grouping *)

Lemma distinct_app_prefix (ks ks' : list string) :
  exists extra, distinct (ks ++ ks') = distinct ks ++ extra.
Proof.
  induction ks' as [|k ks' IH] using rev_ind.
  - exists []. now rewrite !app_nil_r.
  - destruct IH as [extra E]. rewrite app_assoc, distinct_snoc.
    destruct (in_dec string_dec k (ks ++ ks')).
    + now exists extra.
    + exists (extra ++ [k]). now rewrite E, app_assoc.
Qed.

Lemma filter_head_split {A : Type} (f : A -> bool) (l : list A) (x : A)
      (rest : list A) :
  filter f l = x :: rest ->
  exists pre post,
    l = pre ++ x :: post /\ (forall y, In y pre -> f y = false) /\
    rest = filter f post.
Proof.
  induction l as [|a l IH]; simpl; [discriminate|].
  destruct (f a) eqn:Fa.
  - intros [= -> <-]. exists [], l. simpl. repeat split. intros y [].
  - intros H. destruct (IH H) as [pre [post [-> [Hpre Hrest]]]].
    exists (a :: pre), post. simpl. repeat split; [|assumption].
    intros y [<-|Hy]; [assumption | now apply Hpre].
Qed.

Section GroupingMore.
Variable LocalTZA : Z -> Z.
Variable toLocaleDateString : Date -> string.

Local Notation "'key'" := (keyOf LocalTZA).
Local Notation "'group'" := (buildGroupedForecast LocalTZA toLocaleDateString).
Local Notation "'samplesOf'" := (samplesOf LocalTZA).
Local Notation "'bucketOf'" := (bucketOf LocalTZA toLocaleDateString).
Local Notation "'dayKeys'" := (dayKeys LocalTZA).

Lemma samplesOf_In (l : list Sample) (k : string) (it : Sample) :
  In it (samplesOf l k) <-> In it l /\ key it = k.
Proof.
  change (In it (filter (fun it => String.eqb (key it) k) l)
          <-> In it l /\ key it = k).
  rewrite filter_In, String.eqb_eq. reflexivity.
Qed.

Lemma samplesOf_app (l l' : list Sample) (k : string) :
  samplesOf (l ++ l') k = samplesOf l k ++ samplesOf l' k.
Proof.
  change (filter (fun it => String.eqb (key it) k) (l ++ l')
          = filter (fun it => String.eqb (key it) k) l
            ++ filter (fun it => String.eqb (key it) k) l').
  apply filter_app.
Qed.

(** An output bucket is the bucket of one of the first five day keys. *)
Lemma bucket_of_key (l : list Sample) (b : Bucket) :
  In b (group (Some l)) ->
  exists k, In k (map key l) /\ b = bucketOf l k.
Proof.
  rewrite buildGroupedForecast_table. intros H.
  apply in_map_iff in H. destruct H as [k [<- Hk]].
  exists k. split; [|reflexivity].
  apply (proj1 (distinct_In (map key l) k)).
  rewrite <- (firstn_skipn 5 (distinct (map key l))).
  apply in_or_app. now left.
Qed.

(** Whatever the input, absent or not, the grid has at most five days. *)
Theorem group_at_most_five (list : option (Datatypes.list Sample)) :
  (List.length (group list) <= 5)%nat.
Proof.
  destruct list as [l|]; [|simpl; lia].
  rewrite buildGroupedForecast_table, length_map, length_firstn. lia.
Qed.

(** Every bucket of the grid holds at least one sample, holds only samples
    of the input, and holds samples of one viewer-local calendar day. *)
Theorem bucket_sound (l : list Sample) (b : Bucket) :
  In b (group (Some l)) ->
  items b <> [] /\
  (forall it, In it (items b) -> In it l) /\
  (forall x y, In x (items b) -> In y (items b) ->
               localDay LocalTZA x = localDay LocalTZA y).
Proof.
  intros H. destruct (bucket_of_key l b H) as [k [Hk ->]]. simpl.
  split; [now apply samplesOf_nonempty|]. split.
  - intros it Hit. now apply samplesOf_In in Hit.
  - intros x y Hx Hy. apply samplesOf_In in Hx, Hy.
    apply keyOf_eq_iff. destruct Hx as [_ ->]. now destruct Hy as [_ ->].
Qed.

(** The label of a bucket is the formatted date of its first sample, and
    that sample is the first one of its day in the input: later samples of
    the day never change the label. *)
Theorem bucket_label_first_sample (l : list Sample) (b : Bucket) :
  In b (group (Some l)) ->
  exists first rest pre post,
    items b = first :: rest /\
    label b = toLocaleDateString (itemDate first) /\
    l = pre ++ first :: post /\
    (forall x, In x pre -> localDay LocalTZA x <> localDay LocalTZA first).
Proof.
  intros H. destruct (bucket_of_key l b H) as [k [Hk ->]].
  pose proof (samplesOf_nonempty LocalTZA l k Hk) as Hne.
  simpl. destruct (samplesOf l k) as [|first rest] eqn:E; [now elim Hne|].
  assert (Hfirst : key first = k).
  { assert (Hin : In first (samplesOf l k)) by (rewrite E; now left).
    now apply samplesOf_In in Hin. }
  change (filter (fun it => String.eqb (key it) k) l = first :: rest) in E.
  destruct (filter_head_split _ l first rest E) as [pre [post [El [Hpre _]]]].
  exists first, rest, pre, post. repeat split; try assumption.
  intros x Hx Hday. apply keyOf_eq_iff in Hday.
  apply Hpre in Hx. apply String.eqb_neq in Hx. congruence.
Qed.

End GroupingMore.

Section GroupingWhole.
Variable LocalTZA : Z -> Z.
Variable toLocaleDateString : Date -> string.

Local Notation "'key'" := (keyOf LocalTZA).
Local Notation "'group'" := (buildGroupedForecast LocalTZA toLocaleDateString).
Local Notation "'samplesOf'" := (samplesOf LocalTZA).
Local Notation "'bucketOf'" := (bucketOf LocalTZA toLocaleDateString).
Local Notation "'dayKeys'" := (dayKeys LocalTZA).

Lemma samplesOf_cons (x : Sample) (l : list Sample) (k : string) :
  samplesOf (x :: l) k
  = if String.eqb (key x) k then x :: samplesOf l k else samplesOf l k.
Proof. reflexivity. Qed.

Lemma flat_map_samplesOf_skip (x : Sample) (l : list Sample) (ks : list string) :
  ~ In (key x) ks ->
  flat_map (samplesOf (x :: l)) ks = flat_map (samplesOf l) ks.
Proof.
  induction ks as [|k ks IH]; cbn [flat_map]; intros H; [reflexivity|].
  rewrite samplesOf_cons.
  destruct (String.eqb_spec (key x) k) as [E|_]; [elim H; now left|].
  rewrite IH; [reflexivity|]. intros C. apply H. now right.
Qed.

Lemma flat_map_samplesOf_insert (x : Sample) (l : list Sample) (ks : list string) :
  NoDup ks -> In (key x) ks ->
  Permutation (flat_map (samplesOf (x :: l)) ks)
              (x :: flat_map (samplesOf l) ks).
Proof.
  induction 1 as [|k ks Hk Hnd IH]; cbn [flat_map]; intros Hin;
    [contradiction|].
  rewrite samplesOf_cons.
  destruct (String.eqb_spec (key x) k) as [E|Hne].
  - rewrite flat_map_samplesOf_skip by congruence. apply Permutation_refl.
  - destruct Hin as [E|Hin]; [congruence|].
    eapply Permutation_trans.
    + apply Permutation_app_head. now apply IH.
    + apply Permutation_sym, Permutation_middle.
Qed.

Lemma flat_map_samplesOf_perm (ks : list string) (l : list Sample) :
  NoDup ks -> (forall it, In it l -> In (key it) ks) ->
  Permutation (flat_map (samplesOf l) ks) l.
Proof.
  intros Hnd. induction l as [|x l IH]; intros Hcov.
  - replace (flat_map (samplesOf []) ks) with (@nil Sample);
      [constructor|].
    clear. induction ks as [|k ks IH]; simpl; [reflexivity | exact IH].
  - eapply Permutation_trans.
    + apply flat_map_samplesOf_insert; [assumption|]. apply Hcov. now left.
    + constructor. apply IH. intros it Hit. apply Hcov. now right.
Qed.

(** An input of at most five distinct day keys loses no sample and repeats
    none: the buckets read one after the other are a rearrangement of the
    input. *)
Theorem no_sample_lost_within_five_days (l : list Sample) :
  (List.length (dayKeys l) <= 5)%nat ->
  Permutation (List.concat (map items (group (Some l)))) l.
Proof.
  intros Hlen. rewrite buildGroupedForecast_table, firstn_all2 by exact Hlen.
  rewrite map_map.
  change (map (fun k => items (bucketOf l k)) (dayKeys l))
    with (map (samplesOf l) (dayKeys l)).
  rewrite <- flat_map_concat_map.
  apply flat_map_samplesOf_perm; [apply distinct_NoDup|].
  intros it Hit. apply (proj2 (distinct_In (map key l) (key it))).
  now apply in_map.
Qed.

(** Samples arriving later only extend the grid: a bucket of the grid of
    [l] is, in the grid of [l ++ l'], at the same place, under the same
    label, with the same samples first. *)
Theorem buckets_grow (l l' : list Sample) (i : nat) (b : Bucket) :
  nth_error (group (Some l)) i = Some b ->
  exists b' more,
    nth_error (group (Some (l ++ l'))) i = Some b' /\
    label b' = label b /\
    items b' = items b ++ more.
Proof.
  rewrite !buildGroupedForecast_table, !nth_error_map, !nth_error_firstn.
  destruct (Nat.ltb i 5) eqn:Hi; [|discriminate].
  destruct (nth_error (dayKeys l) i) as [k|] eqn:Ek; [|discriminate].
  simpl. intros [= <-].
  assert (Ek' : nth_error (dayKeys (l ++ l')) i = Some k).
  { change (nth_error (distinct (map key (l ++ l'))) i = Some k).
    rewrite map_app.
    destruct (distinct_app_prefix (map key l) (map key l')) as [extra ->].
    rewrite nth_error_app1; [exact Ek|].
    apply nth_error_Some. change (nth_error (dayKeys l) i <> None).
    rewrite Ek. discriminate. }
  rewrite Ek'. simpl.
  exists (bucketOf (l ++ l') k), (samplesOf l' k).
  split; [reflexivity|].
  assert (Hk : In k (map key l)).
  { apply (proj1 (distinct_In (map key l) k)).
    eapply nth_error_In. exact Ek. }
  pose proof (samplesOf_nonempty LocalTZA l k Hk) as Hne.
  simpl. rewrite samplesOf_app.
  destruct (samplesOf l k); [now elim Hne|]. split; reflexivity.
Qed.

End GroupingWhole.

(** ** Slot matching *)

Lemma in_pairs (its : list Sample) (hs : list Z) (it : Sample) (sh : Z) :
  In (it, sh) (pairs its hs) <-> In it its /\ In sh hs.
Proof.
  unfold pairs. rewrite in_flat_map. split.
  - intros [x [Hx Hp]]. apply in_map_iff in Hp.
    destruct Hp as [y [[= <- <-] Hy]]. auto.
  - intros [Hit Hsh]. exists it. split; [assumption|]. now apply in_map.
Qed.

Lemma validSampleb_spec (it : Sample) :
  validSampleb it = true <-> validSample it.
Proof. unfold validSampleb, validSample. apply Z.leb_le. Qed.

Section MatchingMore.
Variable LocalTZA : Z -> Z.

Local Notation "'find'" := (findForecastForSlot LocalTZA).
Local Notation "'dist'" := (hourDistance LocalTZA).
Local Notation "'step'" := (pair_step LocalTZA).

(** The scan of a non-empty cross product of representable samples. *)
Lemma find_valid_minimum (its : list Sample) (lbl : string) (hs : list Z) :
  Forall validSample its -> its <> [] -> hs <> [] ->
  exists pre it sh post,
    pairs its hs = pre ++ (it, sh) :: post /\
    find (Some its) (mkSlot lbl (Some hs)) = Some it /\
    (forall q, In q pre -> dist (it, sh) < dist q) /\
    (forall q, In q post -> dist (it, sh) <= dist q).
Proof.
  intros Hvalid Hits Hhs.
  unfold findForecastForSlot. cbn [hours]. rewrite fold_pairs.
  pose proof (pairs_valid its hs Hvalid) as HP.
  destruct its as [|it0 its']; [now elim Hits|].
  destruct hs as [|sh0 hs']; [now elim Hhs|].
  remember (pairs (it0 :: its') (sh0 :: hs')) as P eqn:EP.
  assert (EP' : exists P', P = (it0, sh0) :: P') by (subst P; simpl; eauto).
  destruct EP' as [P' ->]. clear EP.
  inversion HP as [|? ? H0 HP']; subst.
  simpl fold_left. rewrite (step_first LocalTZA None (it0, sh0) H0).
  destruct (scan_from_bound LocalTZA P' HP' (Some it0) (dist (it0, sh0)))
    as [[Hall E]|[pre [p [post [EP [E [Hlt [Hpre Hpost]]]]]]]].
  - exists [], it0, sh0, P'. simpl in *. rewrite E. repeat split.
    + intros ? [].
    + intros q Hq. rewrite Forall_forall in Hall. now apply Hall.
  - destruct p as [it sh]. exists ((it0, sh0) :: pre), it, sh, post.
    simpl in *. rewrite E, EP. repeat split; try assumption.
    intros q [<-|Hq]; [assumption | now apply Hpre].
Qed.

Lemma slot_item_step_invalid (hs : list Z) (it : Sample) :
  validSampleb it = false ->
  forall acc, slot_item_step LocalTZA hs acc it = acc.
Proof.
  intros H. unfold slot_item_step, itemDate, new_Date, TimeClip.
  unfold validSampleb in H. rewrite H. cbn [getHours].
  induction hs as [|sh hs IH]; intros acc; [reflexivity|].
  cbn [fold_left]. unfold slot_hour_step at 2. cbn. apply IH.
Qed.

Lemma fold_skips_invalid (hs : list Z) (its : list Sample) :
  forall acc,
    fold_left (slot_item_step LocalTZA hs) its acc
    = fold_left (slot_item_step LocalTZA hs) (filter validSampleb its) acc.
Proof.
  induction its as [|it its IH]; intros acc; [reflexivity|].
  cbn [fold_left filter]. destruct (validSampleb it) eqn:E.
  - cbn [fold_left]. apply IH.
  - rewrite (slot_item_step_invalid hs it E). apply IH.
Qed.

Lemma filter_valid_Forall (its : list Sample) :
  Forall validSample (filter validSampleb its).
Proof.
  apply Forall_forall. intros it H. apply filter_In in H.
  now apply validSampleb_spec.
Qed.

Lemma find_on_valid (its : list Sample) (slot : Slot) :
  find (Some its) slot = find (Some (filter validSampleb its)) slot.
Proof.
  unfold findForecastForSlot. destruct (hours slot) as [hs|]; [|reflexivity].
  f_equal. apply fold_skips_invalid.
Qed.

(** The matcher passes over the samples whose timestamp is not a
    representable date: it returns what it returns on the others alone. *)
Theorem find_skips_invalid (its : list Sample) (slot : Slot) :
  find (Some its) slot = find (Some (filter validSampleb its)) slot.
Proof.
  unfold findForecastForSlot. destruct (hours slot) as [hs|]; [|reflexivity].
  now rewrite fold_skips_invalid.
Qed.

Lemma fold_step_origin (P : list (Sample * Z)) :
  forall acc,
    fst (fold_left step P acc) = fst acc \/
    exists p, In p P /\ fst (fold_left step P acc) = Some (fst p).
Proof.
  induction P as [|p P IH]; intros acc; [now left|].
  cbn [fold_left]. destruct (IH (step acc p)) as [E|[q [Hq E]]].
  - assert (Hs : fst (step acc p) = fst acc \/ fst (step acc p) = Some (fst p)).
    { unfold pair_step, slot_hour_step.
      destruct (jsnum_lt _ _); [now right | now left]. }
    destruct Hs as [Hs|Hs]; rewrite Hs in E.
    + now left.
    + right. exists p. split; [now left | exact E].
  - right. exists q. split; [now right | exact E].
Qed.

(** The matcher never makes up a sample: what it returns is one of the
    items it was given. *)
Theorem find_member (items : option (list Sample)) (slot : Slot) (it : Sample) :
  find items slot = Some it ->
  exists its, items = Some its /\ In it its.
Proof.
  unfold findForecastForSlot.
  destruct items as [its|]; [|discriminate].
  destruct (hours slot) as [hs|]; [|discriminate].
  rewrite fold_pairs. intros H. exists its. split; [reflexivity|].
  destruct (fold_step_origin (pairs its hs) (None, Infinity)) as [E|[p [Hp E]]].
  - rewrite H in E. discriminate E.
  - rewrite H in E. injection E as ->. destruct p as [x sh].
    now apply in_pairs in Hp.
Qed.

(** With hours to aim at, the matcher returns nothing exactly when no item
    has a representable timestamp; with no hour it always returns
    nothing. *)
Theorem find_none_iff (its : list Sample) (lbl : string) (hs : list Z) :
  find (Some its) (mkSlot lbl (Some hs)) = None <->
  hs = [] \/ (forall it, In it its -> ~ validSample it).
Proof.
  split.
  - intros H. destruct hs as [|sh hs]; [now left|]. right.
    intros it Hit Hv. rewrite find_on_valid in H.
    assert (Hne : filter validSampleb its <> []).
    { intros E. assert (Hin : In it (filter validSampleb its)).
      { apply filter_In. split; [assumption | now apply validSampleb_spec]. }
      rewrite E in Hin. contradiction. }
    destruct (find_valid_minimum (filter validSampleb its) lbl (sh :: hs)
                (filter_valid_Forall its) Hne)
      as [pre [x [sx [post [_ [E _]]]]]]; [discriminate|].
    rewrite E in H. discriminate H.
  - intros [->|Hinv].
    + unfold findForecastForSlot. cbn [hours]. now rewrite find_no_hours.
    + rewrite find_on_valid.
      replace (filter validSampleb its) with (@nil Sample); [reflexivity|].
      symmetry. clear lbl hs. induction its as [|it its IH]; [reflexivity|].
      cbn [filter]. destruct (validSampleb it) eqn:E.
      * apply validSampleb_spec in E. elim (Hinv it); [now left | assumption].
      * apply IH. intros x Hx. apply Hinv. now right.
Qed.

(** A sample that sits exactly on one of the slot's hours is never passed
    over for one that does not: the matcher then returns a sample whose
    local hour is one of the slot's hours. *)
Theorem exact_hour_wins (its : list Sample) (lbl : string) (hs : list Z)
        (a : Sample) :
  In a its -> validSample a -> In (localHour LocalTZA a) hs ->
  exists it,
    find (Some its) (mkSlot lbl (Some hs)) = Some it /\
    In it its /\ validSample it /\ In (localHour LocalTZA it) hs.
Proof.
  intros Ha Hv Hh. rewrite find_on_valid.
  assert (Ha' : In a (filter validSampleb its)).
  { apply filter_In. split; [assumption | now apply validSampleb_spec]. }
  assert (Hne : filter validSampleb its <> []).
  { intros E. rewrite E in Ha'. contradiction. }
  assert (Hhs : hs <> []) by (intros E; rewrite E in Hh; contradiction).
  destruct (find_valid_minimum (filter validSampleb its) lbl hs
              (filter_valid_Forall its) Hne Hhs)
    as [pre [it [sh [post [EP [E [Hpre Hpost]]]]]]].
  assert (Hp : In (it, sh) (pairs (filter validSampleb its) hs)).
  { rewrite EP. apply in_or_app. right. now left. }
  apply in_pairs in Hp. destruct Hp as [Hit Hsh].
  apply filter_In in Hit. destruct Hit as [Hit Hvit].
  apply validSampleb_spec in Hvit.
  assert (Hq : In (a, localHour LocalTZA a) (pairs (filter validSampleb its) hs))
    by (apply in_pairs; auto).
  assert (H0 : dist (a, localHour LocalTZA a) = 0).
  { unfold hourDistance. cbn [fst snd]. rewrite Z.sub_diag. reflexivity. }
  assert (Hd : dist (it, sh) <= 0).
  { rewrite EP in Hq. apply in_app_or in Hq.
    destruct Hq as [Hq|[Hq|Hq]].
    - apply Hpre in Hq. lia.
    - rewrite Hq. lia.
    - apply Hpost in Hq. lia. }
  exists it. repeat split; try assumption.
  unfold hourDistance in Hd. cbn [fst snd] in Hd.
  replace (localHour LocalTZA it) with sh by lia. assumption.
Qed.

End MatchingMore.

(** ** The grid and its slots together *)

Section GridCells.
Variable LocalTZA : Z -> Z.
Variable toLocaleDateString : Date -> string.

(** When every timestamp is a representable date, every cell of the grid is
    filled: each of the four fixed slots finds, in each bucket, a sample of
    that bucket. *)
Theorem grid_cells_filled (l : list Sample) (b : Bucket) (slot : Slot) :
  Forall validSample l ->
  In b (buildGroupedForecast LocalTZA toLocaleDateString (Some l)) ->
  In slot buildTimeSlots ->
  exists it,
    findForecastForSlot LocalTZA (Some (items b)) slot = Some it /\
    In it (items b) /\ In it l.
Proof.
  intros Hv Hb Hslot.
  destruct (bucket_of_key LocalTZA toLocaleDateString l b Hb) as [k [Hk ->]].
  cbn [items bucketOf].
  pose proof (samplesOf_nonempty LocalTZA l k Hk) as Hne.
  assert (Hsub : forall it, In it (samplesOf LocalTZA l k) -> In it l).
  { intros it Hit. now apply samplesOf_In in Hit. }
  assert (Hvb : Forall validSample (samplesOf LocalTZA l k)).
  { apply Forall_forall. intros it Hit. rewrite Forall_forall in Hv.
    apply Hv. now apply Hsub. }
  assert (Hfind : forall lbl hs, hs <> [] ->
            exists it,
              findForecastForSlot LocalTZA (Some (samplesOf LocalTZA l k))
                                  (mkSlot lbl (Some hs)) = Some it /\
              In it (samplesOf LocalTZA l k) /\ In it l).
  { intros lbl hs Hhs.
    destruct (find_valid_minimum LocalTZA _ lbl hs Hvb Hne Hhs)
      as [pre [it [sh [post [EP [E _]]]]]].
    exists it. split; [exact E|].
    assert (Hp : In (it, sh) (pairs (samplesOf LocalTZA l k) hs))
      by (rewrite EP; apply in_or_app; right; now left).
    apply in_pairs in Hp. destruct Hp as [Hit _]. split; [exact Hit|].
    now apply Hsub. }
  destruct Hslot as [<-|[<-|[<-|[<-|[]]]]]; apply Hfind; discriminate.
Qed.

End GridCells.

(** ** Temperature colours *)

Lemma clamp_bounds (lo hi t : Q) :
  (lo < hi)%Q ->
  (lo <= Math_max lo (Math_min t hi))%Q /\ (Math_max lo (Math_min t hi) <= hi)%Q.
Proof.
  intros H. unfold Math_max, Math_min. split.
  - apply Q.le_max_l.
  - apply Q.max_lub; [lra | apply Q.le_min_r].
Qed.

(** In every unit system the hue stays between 0 and 220; it is 220 at and
    below the lower bound and 0 at and above the upper bound. *)
Theorem hue_range (units : string) (t : Q) :
  (0 <= tempHue units t)%Q /\ (tempHue units t <= 220 # 1)%Q /\
  ((t <= fst (tempDomain units))%Q -> (tempHue units t == 220 # 1)%Q) /\
  ((snd (tempDomain units) <= t)%Q -> (tempHue units t == 0)%Q).
Proof.
  rewrite tempHue_hueAt.
  pose proof (tempDomain_ordered units) as Hd.
  pose proof (domain_width_positive units) as Hw.
  destruct (hueAt_endpoints units) as [E220 E0].
  destruct (tempDomain units) as [lo hi]. cbn [fst snd] in *.
  destruct (clamp_bounds lo hi t Hd) as [Hlo Hhi].
  assert (H0 : (0 <= hueAt lo hi (Math_max lo (Math_min t hi)))%Q).
  { rewrite <- E0. now apply hueAt_antitone. }
  assert (H220 : (hueAt lo hi (Math_max lo (Math_min t hi)) <= 220 # 1)%Q).
  { rewrite <- E220. now apply hueAt_antitone. }
  split; [exact H0|]. split; [exact H220|]. split.
  - intros Ht. apply Qle_antisym; [exact H220|].
    rewrite <- E220. apply hueAt_antitone; [exact Hw|].
    unfold Math_max, Math_min. apply Q.max_lub; [lra|].
    eapply Qle_trans; [apply Q.le_min_l | exact Ht].
  - intros Ht. apply Qle_antisym; [|exact H0].
    rewrite <- E0. apply hueAt_antitone; [exact Hw|].
    unfold Math_max, Math_min.
    eapply Qle_trans; [|apply Q.le_max_r].
    apply Q.min_glb; [exact Ht | lra].
Qed.

(** ** Labels and links *)

(** The legend always belongs to the colour scale in use: two unit systems
    have the same three legend labels exactly when they are coloured over
    the same bounds, so an unrecognized unit system gets the kelvin legend
    along with the kelvin colours. *)
Theorem legend_follows_colour_domain (u1 u2 : string) :
  tempDomain u1 = tempDomain u2 <->
  legendLowLabel u1 = legendLowLabel u2 /\
  legendMidLabel u1 = legendMidLabel u2 /\
  legendHighLabel u1 = legendHighLabel u2.
Proof.
  unfold tempDomain, legendLowLabel, legendMidLabel, legendHighLabel.
  destruct (String.eqb u1 "imperial"), (String.eqb u1 "metric"),
           (String.eqb u2 "imperial"), (String.eqb u2 "metric");
    split; try (intros H; discriminate H);
    try (intros [H _]; discriminate H); auto.
Qed.

(** The wind speed is in miles per hour exactly when the temperature is in
    degrees Fahrenheit, that is for "imperial" alone; the kelvin label is
    for "standard" alone. *)
Theorem unit_labels_characterised (units : string) :
  (speedUnit units = "mph" <-> units = "imperial") /\
  (unitsLabel units = "°F" <-> units = "imperial") /\
  (unitsLabel units = "K" <-> units = "standard").
Proof.
  unfold speedUnit, unitsLabel.
  destruct (String.eqb_spec units "imperial") as [->|H1].
  - repeat split; auto; try discriminate.
  - destruct (String.eqb_spec units "standard") as [->|H2];
      repeat split; auto; try discriminate; intros C; now elim H1 + elim H2.
Qed.

Lemma string_length_app (a b : string) :
  String.length (a ++ b)%string = (String.length a + String.length b)%nat.
Proof. induction a as [|c a IH]; simpl; [reflexivity | now rewrite IH]. Qed.

Lemma string_app_inv_tail (s : string) : forall a b : string,
  (a ++ s)%string = (b ++ s)%string -> a = b.
Proof.
  induction a as [|c a IH]; destruct b as [|c' b]; simpl; intros H.
  - reflexivity.
  - apply (f_equal String.length) in H. simpl in H.
    rewrite string_length_app in H. lia.
  - apply (f_equal String.length) in H. simpl in H.
    rewrite string_length_app in H. lia.
  - injection H as -> H. f_equal. now apply IH.
Qed.

(** An icon link is empty exactly for a missing or empty icon code, and
    different codes never share a link. *)
Theorem iconUrl_faithful :
  (forall icon, iconUrl icon = "" <-> Boolean icon = false) /\
  (forall a b, truthy_string a = true -> truthy_string b = true ->
               iconUrl (Some a) = iconUrl (Some b) -> a = b).
Proof.
  split.
  - intros [i|]; simpl; [|tauto].
    destruct (truthy_string i); split; intros H; try discriminate H; reflexivity.
  - intros a b Ha Hb. unfold iconUrl. rewrite Ha, Hb. simpl. intros H.
    injection H as H. now apply string_app_inv_tail in H.
Qed.

(** ** The search state machine *)

Section SearchMore.
Variable LocalTZA : Z -> Z.
Variable toLocaleDateString : Date -> string.

Local Notation "'group'" := (buildGroupedForecast LocalTZA toLocaleDateString).
Local Notation "'run'" := (search LocalTZA toLocaleDateString).
Local Notation "'runs'" := (searches LocalTZA toLocaleDateString).

(** After a search the error is cleared exactly when the response carried
    current conditions and a forecast object; every other outcome leaves a
    message. *)
Theorem error_none_iff_success (o : Outcome) (vm : VM) :
  error (run o vm) = None <-> succeeded o = true.
Proof.
  destruct o as [[d|]|err]; simpl.
  - unfold search, search_settle, onFulfilled.
    destruct (current d), (forecast d); simpl; split; intros H;
      try discriminate H; reflexivity.
  - split; intros H; discriminate H.
  - split; intros H; discriminate H.
Qed.

(** A successful search overwrites everything but the query and the unit
    system: the earlier error, data, grid and slots leave no trace. *)
Theorem successful_search_overwrites (vm : VM) (d : Payload) (c : Current)
        (f : Forecast) :
  current d = Some c -> forecast d = Some f ->
  run (Resolved (Some d)) vm
  = mkVM (query vm) (units vm) false None d
         (group (forecast_list f)) buildTimeSlots.
Proof.
  intros Hc Hf. unfold search, search_settle, onFulfilled.
  rewrite Hc, Hf. reflexivity.
Qed.

(** A response with current conditions but no forecast object fails while
    the callback runs: the new data is already stored, the grid and the
    slots are still those of the search before, and the generic message is
    shown. *)
Theorem response_without_forecast (vm : VM) (d : Payload) (c : Current) :
  current d = Some c -> forecast d = None ->
  data (run (Resolved (Some d)) vm) = d /\
  groupedForecast (run (Resolved (Some d)) vm) = groupedForecast vm /\
  slots (run (Resolved (Some d)) vm) = slots vm /\
  error (run (Resolved (Some d)) vm) = Some "Failed to load weather." /\
  loading (run (Resolved (Some d)) vm) = false.
Proof.
  intros Hc Hf. unfold search, search_settle, onFulfilled.
  rewrite Hc, Hf. repeat split.
Qed.

(** Every failed search leaves a message that is not empty, and a rejection
    that carries a non-empty error text shows that text as it is. *)
Theorem failure_message (o : Outcome) (vm : VM) :
  succeeded o = false ->
  (exists msg, error (run o vm) = Some msg /\ truthy_string msg = true) /\
  (forall msg, truthy_string msg = true ->
               o = Rejected (Some (mkHttpError (Some (mkErrorBody (Some msg))))) ->
               error (run o vm) = Some msg).
Proof.
  intros Hs. split.
  - destruct o as [[d|]|err]; simpl in *.
    + unfold search, search_settle, onFulfilled.
      destruct (current d), (forecast d); simpl; try discriminate Hs; eauto.
    + eauto.
    + exists (error_text err). split; [reflexivity|].
      destruct err as [[[[[msg|]]|]]|]; simpl; try reflexivity.
      destruct (truthy_string msg) eqn:E; [exact E | reflexivity].
  - intros msg Hm ->. simpl. now rewrite Hm.
Qed.

(** Settling the same outcome a second time changes nothing. *)
Theorem search_idempotent (o : Outcome) (vm : VM) :
  run o (run o vm) = run o vm.
Proof.
  destruct o as [[d|]|err]; try reflexivity.
  unfold search, search_settle, onFulfilled.
  destruct (current d), (forecast d); reflexivity.
Qed.

Lemma group_settled (list : option (Datatypes.list Sample)) :
  (List.length (group list) <= 5)%nat /\
  (forall b, In b (group list) -> items b <> []).
Proof.
  destruct list as [l|]; [|split; [simpl; lia | intros b []]].
  split.
  - rewrite buildGroupedForecast_table, length_map, length_firstn. lia.
  - intros b Hb.
    destruct (bucket_of_key LocalTZA toLocaleDateString l b Hb) as [k [Hk ->]].
    now apply samplesOf_nonempty.
Qed.

Lemma search_settled (o : Outcome) (vm : VM) :
  settled vm -> settled (run o vm).
Proof.
  intros [Hl [Hlen [Hne Hsl]]].
  assert (Hempty : forall q u e dd,
             settled (mkVM q u false e dd [] [])).
  { intros q u e dd. unfold settled. cbn.
    split; [reflexivity|]. split; [lia|]. split; [intros b []|].
    left. split; reflexivity. }
  destruct o as [[d|]|err].
  - unfold search, search_settle, onFulfilled.
    destruct (current d) as [c|]; [destruct (forecast d) as [f|]|]; cbn.
    + destruct (group_settled (forecast_list f)) as [H5 Hn].
      unfold settled. cbn. split; [reflexivity|]. split; [exact H5|].
      split; [exact Hn|]. now right.
    + unfold settled. cbn. split; [reflexivity|]. split; [exact Hlen|].
      split; [exact Hne | exact Hsl].
    + apply Hempty.
  - apply Hempty.
  - unfold settled. cbn. split; [reflexivity|]. split; [exact Hlen|].
    split; [exact Hne | exact Hsl].
Qed.

(** Whatever the outcomes of a run of searches from the initial state, the
    controller ends with the loading indicator off, at most five buckets,
    none of them empty, and either no slots beside an empty grid or the four
    fixed slots; the query and the unit system are never written. *)
Theorem searches_keep_settled (os : list Outcome) :
  settled (runs os initial) /\
  query (runs os initial) = query initial /\
  units (runs os initial) = units initial.
Proof.
  assert (G : forall vm, settled vm ->
                settled (runs os vm) /\
                query (runs os vm) = query vm /\ units (runs os vm) = units vm).
  { induction os as [|o os IH]; intros vm Hvm;
      [split; [exact Hvm | split; reflexivity]|].
    unfold searches. cbn [fold_left]. fold (runs os (run o vm)).
    destruct (IH (run o vm) (search_settled o vm Hvm)) as [Hs [Hq Hu]].
    split; [exact Hs|]. rewrite Hq, Hu.
    destruct o as [[d|]|err]; try (split; reflexivity).
    unfold search, search_settle, onFulfilled.
    destruct (current d), (forecast d); split; reflexivity. }
  apply G. unfold settled, initial. cbn.
  split; [reflexivity|]. split; [lia|]. split; [intros b []|].
  left. split; reflexivity.
Qed.

End SearchMore.

(** ** The order of the buckets *)

(** A key that [distinct] lists before another one occurs in the input
    before the other one's first occurrence. *)
Lemma distinct_order (ks : list string) :
  forall A k1 B k2 C,
    distinct ks = A ++ k1 :: B ++ k2 :: C ->
    exists pre mid post,
      ks = pre ++ k1 :: mid ++ k2 :: post /\ ~ In k2 (pre ++ k1 :: mid).
Proof.
  induction ks as [|k ks IH] using rev_ind; intros A k1 B k2 C HD.
  - simpl in HD. now apply app_cons_not_nil in HD.
  - rewrite distinct_snoc in HD.
    assert (Hext : forall pre mid post,
               ks = pre ++ k1 :: mid ++ k2 :: post ->
               ks ++ [k] = pre ++ k1 :: mid ++ k2 :: (post ++ [k])).
    { intros pre mid post ->.
      rewrite <- app_assoc. simpl. rewrite <- app_assoc. reflexivity. }
    destruct (in_dec string_dec k ks) as [Hin|Hnin].
    + destruct (IH A k1 B k2 C HD) as [pre [mid [post [E Hno]]]].
      exists pre, mid, (post ++ [k]). split; [now apply Hext | exact Hno].
    + destruct C as [|c0 C0].
      * assert (HD' : distinct ks ++ [k] = (A ++ k1 :: B) ++ [k2])
          by (rewrite HD, <- app_assoc; reflexivity).
        apply app_inj_tail in HD'. destruct HD' as [HD' ->].
        assert (H1 : In k1 ks).
        { apply (proj1 (distinct_In ks k1)). rewrite HD'.
          apply in_or_app. right. now left. }
        apply in_split in H1. destruct H1 as [pre [mid E]].
        exists pre, mid, []. split.
        -- rewrite E, <- app_assoc. reflexivity.
        -- now rewrite <- E.
      * destruct (exists_last (l := c0 :: C0)) as [C' [c EC]]; [discriminate|].
        rewrite EC in HD.
        assert (HD' : distinct ks ++ [k] = (A ++ k1 :: B ++ k2 :: C') ++ [c]).
        { rewrite HD, <- app_assoc. simpl. rewrite <- app_assoc.
          reflexivity. }
        apply app_inj_tail in HD'. destruct HD' as [HD' _].
        destruct (IH A k1 B k2 C' HD') as [pre [mid [post [E Hno]]]].
        exists pre, mid, (post ++ [k]). split; [now apply Hext | exact Hno].
Qed.

Section BucketOrder.
Variable LocalTZA : Z -> Z.
Variable toLocaleDateString : Date -> string.

Local Notation "'key'" := (keyOf LocalTZA).
Local Notation "'group'" := (buildGroupedForecast LocalTZA toLocaleDateString).
Local Notation "'samplesOf'" := (samplesOf LocalTZA).
Local Notation "'bucketOf'" := (bucketOf LocalTZA toLocaleDateString).
Local Notation "'dayKeys'" := (dayKeys LocalTZA).

(** The buckets follow the order in which their days are first met, which
    need not be the order of the calendar: the first sample of a later
    bucket comes, in the input, after a sample of every earlier bucket. *)
Theorem buckets_in_first_encounter_order (l : list Sample) (i j : nat)
        (bi bj : Bucket) :
  (i < j)%nat ->
  nth_error (group (Some l)) i = Some bi ->
  nth_error (group (Some l)) j = Some bj ->
  exists x first rest pre mid post,
    In x (items bi) /\ items bj = first :: rest /\
    l = pre ++ x :: mid ++ first :: post.
Proof.
  intros Hij. rewrite !buildGroupedForecast_table, !nth_error_map,
    !nth_error_firstn.
  destruct (Nat.ltb i 5); [|discriminate].
  destruct (Nat.ltb j 5); [|discriminate].
  destruct (nth_error (dayKeys l) i) as [k1|] eqn:E1; [|discriminate].
  destruct (nth_error (dayKeys l) j) as [k2|] eqn:E2; [|discriminate].
  cbn [option_map]. intros [= <-] [= <-].
  apply nth_error_split in E2. destruct E2 as [D1 [C [ED Hlen]]].
  rewrite ED in E1. rewrite nth_error_app1 in E1 by lia.
  apply nth_error_split in E1. destruct E1 as [A [B [ED1 _]]].
  assert (HD : distinct (map key l) = A ++ k1 :: B ++ k2 :: C).
  { change (dayKeys l = A ++ k1 :: B ++ k2 :: C).
    rewrite ED, ED1, <- app_assoc. reflexivity. }
  destruct (distinct_order (map key l) A k1 B k2 C HD)
    as [kpre [kmid [kpost [EK Hno]]]].
  apply map_eq_app in EK. destruct EK as [L1 [R1 [El [EL1 ER1]]]].
  apply map_eq_cons in ER1. destruct ER1 as [x [R2 [ER1 [Hx ER2]]]].
  apply map_eq_app in ER2. destruct ER2 as [L2 [R3 [ER2' [EL2 ER3]]]].
  apply map_eq_cons in ER3. destruct ER3 as [y [L3 [ER3' [Hy _]]]].
  subst R1 R2 R3.
  exists x, y, (samplesOf L3 k2), L1, L2, L3. split; [|split].
  - cbn [items bucketOf]. apply samplesOf_In. split; [|exact Hx].
    rewrite El. apply in_or_app. right. now left.
  - cbn [items bucketOf].
    assert (Hpre : samplesOf (L1 ++ x :: L2) k2 = []).
    { apply samplesOf_empty. rewrite map_app. cbn [map].
      rewrite EL1, Hx, EL2. exact Hno. }
    rewrite El.
    replace (L1 ++ x :: L2 ++ y :: L3) with ((L1 ++ x :: L2) ++ y :: L3)
      by (rewrite <- app_assoc; reflexivity).
    rewrite samplesOf_app, Hpre. cbn [app].
    rewrite samplesOf_cons, Hy, String.eqb_refl. reflexivity.
  - exact El.
Qed.

End BucketOrder.

(** ** The request URL *)

Example request_url_default :
  fetchByCity_url "Sagar,IN" "metric" = "/api/weather?q=Sagar%2CIN&units=metric".
Proof. reflexivity. Qed.

Example request_url_space_and_ampersand :
  fetchByCity_url "New York&units=x" "metric"
  = "/api/weather?q=New+York%26units%3Dx&units=metric".
Proof. reflexivity. Qed.

Lemma fetchByCity_url_shape (q units : string) :
  fetchByCity_url q units
  = ("/api/weather?q=" ++ urlencode q ++ "&units=" ++ urlencode units)%string.
Proof.
  unfold fetchByCity_url, URLSearchParams_toString. cbn [fold_left fst snd].
  change (urlencode "q") with "q". change (urlencode "units") with "units".
  cbn [truthy_string append]. rewrite !string_app_assoc. reflexivity.
Qed.

Lemma decode_head_encoded (c : ascii) (r : string) :
  decode_head (urlencoded_byte c ++ r) = Some (c, r).
Proof.
  destruct c as [[] [] [] [] [] [] [] []]; reflexivity.
Qed.

Lemma urlencoded_byte_safe (c : ascii) :
  forallb urlsafe (list_ascii_of_string (urlencoded_byte c)) = true.
Proof.
  destruct c as [[] [] [] [] [] [] [] []]; reflexivity.
Qed.

Lemma list_ascii_app (a b : string) :
  list_ascii_of_string (a ++ b)
  = list_ascii_of_string a ++ list_ascii_of_string b.
Proof. induction a as [|c a IH]; simpl; [reflexivity | now rewrite IH]. Qed.

Lemma urlencode_safe (s : string) :
  forallb urlsafe (list_ascii_of_string (urlencode s)) = true.
Proof.
  induction s as [|c s IH]; [reflexivity|].
  cbn [urlencode]. rewrite list_ascii_app, forallb_app, IH.
  now rewrite urlencoded_byte_safe.
Qed.

Lemma urlencode_sep (q1 : string) : forall (q2 r1 r2 : string),
  (urlencode q1 ++ String "&" r1 = urlencode q2 ++ String "&" r2)%string ->
  q1 = q2 /\ r1 = r2.
Proof.
  induction q1 as [|c1 q1 IH]; destruct q2 as [|c2 q2]; cbn [urlencode];
    intros r1 r2 H.
  - cbn in H. injection H as ->. now split.
  - apply (f_equal decode_head) in H. rewrite string_app_assoc in H.
    rewrite decode_head_encoded in H. discriminate H.
  - apply (f_equal decode_head) in H. rewrite string_app_assoc in H.
    rewrite decode_head_encoded in H. discriminate H.
  - apply (f_equal decode_head) in H. rewrite !string_app_assoc in H.
    rewrite !decode_head_encoded in H. injection H as -> H.
    apply IH in H. destruct H as [-> ->]. now split.
Qed.

Lemma urlencode_inj (s1 : string) : forall s2 : string,
  urlencode s1 = urlencode s2 -> s1 = s2.
Proof.
  induction s1 as [|c1 s1 IH]; destruct s2 as [|c2 s2]; cbn [urlencode];
    intros H.
  - reflexivity.
  - apply (f_equal decode_head) in H.
    rewrite decode_head_encoded in H. discriminate H.
  - apply (f_equal decode_head) in H.
    rewrite decode_head_encoded in H. discriminate H.
  - apply (f_equal decode_head) in H. rewrite !decode_head_encoded in H.
    injection H as -> H. f_equal. now apply IH.
Qed.

(** Whatever the query and the unit system contain, the request has the two
    parameters q and units and no other: the encoded values contain no
    ampersand, equals sign, question mark, hash, slash or space. *)
Theorem request_url_two_parameters (q units : string) :
  fetchByCity_url q units
  = ("/api/weather?q=" ++ urlencode q ++ "&units=" ++ urlencode units)%string /\
  (forall s c,
      In c (list_ascii_of_string (urlencode s)) ->
      c <> "&"%char /\ c <> "="%char /\ c <> "?"%char /\ c <> "#"%char /\
      c <> "/"%char /\ c <> " "%char).
Proof.
  split; [apply fetchByCity_url_shape|].
  intros s c Hc. pose proof (urlencode_safe s) as Hs.
  rewrite forallb_forall in Hs. apply Hs in Hc.
  repeat split; intros ->; discriminate Hc.
Qed.

(** On the bytes that are encoded, the URL is one to one. *)
Lemma request_url_injective (q1 u1 q2 u2 : string) :
  fetchByCity_url q1 u1 = fetchByCity_url q2 u2 -> q1 = q2 /\ u1 = u2.
Proof.
  rewrite !fetchByCity_url_shape. intros H. cbn in H.
  repeat (injection H as H).
  apply urlencode_sep in H. destruct H as [-> H]. split; [reflexivity|].
  cbn in H. repeat (injection H as H). now apply urlencode_inj.
Qed.

(** Two searches request the same URL exactly when their queries and their
    unit systems have the same UTF-8 bytes after the conversion to scalar
    values.  The URL does not determine the strings themselves: a
    surrogate without its partner is requested as U+FFFD is. *)
Theorem request_url_determines_utf8 (q1 u1 q2 u2 : JsString) :
  fetchByCity_request q1 u1 = fetchByCity_request q2 u2 <->
  ToUTF8 q1 = ToUTF8 q2 /\ ToUTF8 u1 = ToUTF8 u2.
Proof.
  unfold fetchByCity_request. split.
  - apply request_url_injective.
  - intros [-> ->]. reflexivity.
Qed.

Example request_of_strings :
  fetchByCity_request (ofAscii "Sagar,IN") (ofAscii "metric")
  = "/api/weather?q=Sagar%2CIN&units=metric".
Proof. vm_compute. reflexivity. Qed.

Example request_beyond_ascii :
  fetchByCity_request [90%N; 252%N; 114%N; 105%N; 99%N; 104%N] (ofAscii "metric")
  = "/api/weather?q=Z%C3%BCrich&units=metric" /\
  fetchByCity_request [26481%N; 20140%N] (ofAscii "metric")
  = "/api/weather?q=%E6%9D%B1%E4%BA%AC&units=metric" /\
  fetchByCity_request [55357%N; 56832%N] (ofAscii "metric")
  = "/api/weather?q=%F0%9F%98%80&units=metric".
Proof. repeat split; vm_compute; reflexivity. Qed.

Example lone_surrogate_requested_as_replacement :
  fetchByCity_request [55296%N] (ofAscii "metric")
  = "/api/weather?q=%EF%BF%BD&units=metric" /\
  fetchByCity_request [55296%N] (ofAscii "metric")
  = fetchByCity_request [65533%N] (ofAscii "metric").
Proof. split; vm_compute; reflexivity. Qed.

(** ** Display strings *)

(** No display string is ever empty: the place name and the time zone label
    fall back to their placeholders, and every unit label and legend label
    has a text for every unit system. *)
Theorem display_strings_nonempty (data : Payload) (timeZone : option string)
        (units : string) :
  truthy_string (placeName data) = true /\
  truthy_string (localTZLabel timeZone) = true /\
  truthy_string (unitsLabel units) = true /\
  truthy_string (speedUnit units) = true /\
  truthy_string (legendLowLabel units) = true /\
  truthy_string (legendMidLabel units) = true /\
  truthy_string (legendHighLabel units) = true.
Proof.
  split; [|split].
  - unfold placeName.
    destruct (truthy_string (Array_join _ _)) eqn:E; [exact E | reflexivity].
  - destruct timeZone as [tz|]; [|reflexivity]. simpl.
    destruct (truthy_string tz) eqn:E; [exact E | reflexivity].
  - unfold unitsLabel, speedUnit, legendLowLabel, legendMidLabel,
      legendHighLabel.
    destruct (String.eqb units "imperial"), (String.eqb units "standard"),
      (String.eqb units "metric"); repeat split.
Qed.

(** ** The further theorems at concrete inputs *)

Lemma firstDayBucket_in_grid :
  In firstDayBucket (buildGroupedForecast utc dayNumberLabel (Some mixedDays)).
Proof. vm_compute. left. reflexivity. Defined.

Lemma mixedDays_valid : Forall validSample mixedDays.
Proof. repeat constructor; vm_compute; discriminate. Defined.

Lemma bucket_sound_witness :
  In firstDayBucket (buildGroupedForecast utc dayNumberLabel (Some mixedDays)) /\
  items firstDayBucket <> [] /\
  (forall it, In it (items firstDayBucket) -> In it mixedDays) /\
  (forall x y, In x (items firstDayBucket) -> In y (items firstDayBucket) ->
               localDay utc x = localDay utc y).
Proof.
  split; [exact firstDayBucket_in_grid|].
  exact (bucket_sound utc dayNumberLabel mixedDays firstDayBucket
           firstDayBucket_in_grid).
Defined.

Lemma bucket_label_first_sample_witness :
  In firstDayBucket (buildGroupedForecast utc dayNumberLabel (Some mixedDays)) /\
  exists first rest pre post,
    items firstDayBucket = first :: rest /\
    label firstDayBucket = dayNumberLabel (itemDate first) /\
    mixedDays = pre ++ first :: post /\
    (forall x, In x pre -> localDay utc x <> localDay utc first).
Proof.
  split; [exact firstDayBucket_in_grid|].
  exact (bucket_label_first_sample utc dayNumberLabel mixedDays firstDayBucket
           firstDayBucket_in_grid).
Defined.

Lemma no_sample_lost_within_five_days_witness :
  (List.length (dayKeys utc twoDaysInterleaved) <= 5)%nat /\
  Permutation
    (List.concat (map items (buildGroupedForecast utc dayNumberLabel
                               (Some twoDaysInterleaved))))
    twoDaysInterleaved.
Proof.
  assert (H : (List.length (dayKeys utc twoDaysInterleaved) <= 5)%nat)
    by (vm_compute; repeat constructor).
  split; [exact H|].
  exact (no_sample_lost_within_five_days utc dayNumberLabel twoDaysInterleaved H).
Defined.

Lemma buckets_grow_witness :
  nth_error (buildGroupedForecast utc dayNumberLabel (Some twoDaysInterleaved)) 0
  = Some (bucketOf utc dayNumberLabel twoDaysInterleaved "1970-1-1") /\
  exists b' more,
    nth_error (buildGroupedForecast utc dayNumberLabel
                 (Some (twoDaysInterleaved ++ [sampleAt 21600]))) 0 = Some b' /\
    label b' = label (bucketOf utc dayNumberLabel twoDaysInterleaved "1970-1-1") /\
    items b'
    = items (bucketOf utc dayNumberLabel twoDaysInterleaved "1970-1-1") ++ more.
Proof.
  assert (H : nth_error (buildGroupedForecast utc dayNumberLabel
                           (Some twoDaysInterleaved)) 0
              = Some (bucketOf utc dayNumberLabel twoDaysInterleaved "1970-1-1"))
    by (vm_compute; reflexivity).
  split; [exact H|].
  exact (buckets_grow utc dayNumberLabel twoDaysInterleaved [sampleAt 21600] 0
           _ H).
Defined.

Lemma buckets_in_first_encounter_order_witness :
  (0 < 1)%nat /\
  nth_error (buildGroupedForecast utc dayNumberLabel (Some mixedDays)) 0
  = Some firstDayBucket /\
  nth_error (buildGroupedForecast utc dayNumberLabel (Some mixedDays)) 1
  = Some (bucketOf utc dayNumberLabel mixedDays "1970-1-2") /\
  exists x first rest pre mid post,
    In x (items firstDayBucket) /\
    items (bucketOf utc dayNumberLabel mixedDays "1970-1-2") = first :: rest /\
    mixedDays = pre ++ x :: mid ++ first :: post.
Proof.
  assert (H0 : (0 < 1)%nat) by constructor.
  assert (H1 : nth_error (buildGroupedForecast utc dayNumberLabel (Some mixedDays)) 0
               = Some firstDayBucket) by (vm_compute; reflexivity).
  assert (H2 : nth_error (buildGroupedForecast utc dayNumberLabel (Some mixedDays)) 1
               = Some (bucketOf utc dayNumberLabel mixedDays "1970-1-2"))
    by (vm_compute; reflexivity).
  split; [exact H0|]. split; [exact H1|]. split; [exact H2|].
  exact (buckets_in_first_encounter_order utc dayNumberLabel mixedDays 0 1
           _ _ H0 H1 H2).
Defined.

Lemma find_member_witness :
  findForecastForSlot utc (Some threeHours) Afternoon
  = Some (sampleAt (13 * 3600)) /\
  exists its, Some threeHours = Some its /\ In (sampleAt (13 * 3600)) its.
Proof.
  assert (H : findForecastForSlot utc (Some threeHours) Afternoon
              = Some (sampleAt (13 * 3600))) by (vm_compute; reflexivity).
  split; [exact H|].
  exact (find_member utc (Some threeHours) Afternoon _ H).
Defined.

Lemma exact_hour_wins_witness :
  In (sampleAt (12 * 3600)) beforeAndAtNoon /\
  validSample (sampleAt (12 * 3600)) /\
  In (localHour utc (sampleAt (12 * 3600))) [12; 15; 18] /\
  exists it,
    findForecastForSlot utc (Some beforeAndAtNoon)
                        (mkSlot "Afternoon" (Some [12; 15; 18])) = Some it /\
    In it beforeAndAtNoon /\ validSample it /\
    In (localHour utc it) [12; 15; 18].
Proof.
  assert (H1 : In (sampleAt (12 * 3600)) beforeAndAtNoon)
    by (right; left; reflexivity).
  assert (H2 : validSample (sampleAt (12 * 3600)))
    by (vm_compute; discriminate).
  assert (H3 : In (localHour utc (sampleAt (12 * 3600))) [12; 15; 18])
    by (left; reflexivity).
  split; [exact H1|]. split; [exact H2|]. split; [exact H3|].
  exact (exact_hour_wins utc beforeAndAtNoon "Afternoon" [12; 15; 18] _ H1 H2 H3).
Defined.

Lemma grid_cells_filled_witness :
  Forall validSample mixedDays /\
  In firstDayBucket (buildGroupedForecast utc dayNumberLabel (Some mixedDays)) /\
  In Afternoon buildTimeSlots /\
  exists it,
    findForecastForSlot utc (Some (items firstDayBucket)) Afternoon = Some it /\
    In it (items firstDayBucket) /\ In it mixedDays.
Proof.
  assert (H3 : In Afternoon buildTimeSlots) by (right; left; reflexivity).
  split; [exact mixedDays_valid|]. split; [exact firstDayBucket_in_grid|].
  split; [exact H3|].
  exact (grid_cells_filled utc dayNumberLabel mixedDays firstDayBucket Afternoon
           mixedDays_valid firstDayBucket_in_grid H3).
Defined.

Lemma successful_search_overwrites_witness :
  current sixDaysResponse = Some (mkCurrent (20 # 1)) /\
  forecast sixDaysResponse = Some (mkForecast (Some sixDays)) /\
  search utc dayNumberLabel (Resolved (Some sixDaysResponse))
         (search utc dayNumberLabel cityNotFound initial)
  = mkVM "Sagar,IN" "metric" false None sixDaysResponse
         (buildGroupedForecast utc dayNumberLabel (Some sixDays)) buildTimeSlots.
Proof.
  assert (H1 : current sixDaysResponse = Some (mkCurrent (20 # 1)))
    by reflexivity.
  assert (H2 : forecast sixDaysResponse = Some (mkForecast (Some sixDays)))
    by reflexivity.
  split; [exact H1|]. split; [exact H2|].
  exact (successful_search_overwrites utc dayNumberLabel
           (search utc dayNumberLabel cityNotFound initial)
           sixDaysResponse _ _ H1 H2).
Defined.

Lemma response_without_forecast_witness :
  current noForecastResponse = Some (mkCurrent (20 # 1)) /\
  forecast noForecastResponse = None /\
  data (search utc dayNumberLabel (Resolved (Some noForecastResponse)) loaded)
  = noForecastResponse /\
  groupedForecast (search utc dayNumberLabel (Resolved (Some noForecastResponse))
                          loaded)
  = groupedForecast loaded /\
  slots (search utc dayNumberLabel (Resolved (Some noForecastResponse)) loaded)
  = slots loaded /\
  error (search utc dayNumberLabel (Resolved (Some noForecastResponse)) loaded)
  = Some "Failed to load weather." /\
  loading (search utc dayNumberLabel (Resolved (Some noForecastResponse)) loaded)
  = false.
Proof.
  assert (H1 : current noForecastResponse = Some (mkCurrent (20 # 1)))
    by reflexivity.
  assert (H2 : forecast noForecastResponse = None) by reflexivity.
  split; [exact H1|]. split; [exact H2|].
  exact (response_without_forecast utc dayNumberLabel loaded
           noForecastResponse _ H1 H2).
Defined.

Lemma failure_message_witness :
  succeeded cityNotFound = false /\
  (exists msg,
      error (search utc dayNumberLabel cityNotFound initial) = Some msg /\
      truthy_string msg = true) /\
  error (search utc dayNumberLabel cityNotFound initial) = Some "city not found".
Proof.
  assert (H : succeeded cityNotFound = false) by reflexivity.
  destruct (failure_message utc dayNumberLabel cityNotFound initial H)
    as [Hex Hmsg].
  split; [exact H|]. split; [exact Hex|].
  exact (Hmsg "city not found" eq_refl eq_refl).
Defined.
